(** * The Fritzing format parser (parser/fritzing.py)

    A shallow embedding of the Fritzing sketch parser: the session class
    [Fritzing], the part parser [ComponentParser] and the coordinate
    helpers, over a model of the ElementTree documents they walk and of
    the Python 2 builtins they call. *)

From Stdlib Require Import ZArith String Ascii List Lia Bool.
From Stdlib Require Import Decimal DecimalPos DecimalString QArith_base.
From Corelib Require Import SpecFloat.
From stdpp Require Import base option list strings gmap fin_maps.

Local Open Scope Z_scope.
Local Open Scope string_scope.

(** ** Exceptions

    Nothing in the module catches an exception, so a raised exception
    aborts the whole call chain: a computation returns a value or the
    exception that ended it. *)

Inductive exn : Type :=
| ValueError
| TypeError
| AttributeError
| OverflowError
| KeyError
| IOError
| ParseError.

Inductive result (A : Type) : Type :=
| Ok (a : A)
| Raise (e : exn).

Arguments Ok {A} a.
Arguments Raise {A} e.

Definition rbind {A B : Type} (r : result A) (k : A -> result B) : result B :=
  match r with
  | Ok a => k a
  | Raise e => Raise e
  end.

Notation "'let*' x ':=' r 'in' k" := (rbind r (fun x => k))
  (at level 10, x name, r at level 100, k at level 200).

(** [for x in xs: st = body(st, x)], stopping at the first exception. *)
Fixpoint for_each {S A : Type} (body : S -> A -> result S) (st : S) (xs : list A)
  : result S :=
  match xs with
  | [] => Ok st
  | x :: xs' => let* st' := body st x in for_each body st' xs'
  end.

(** ** Python 2 string builtins *)

(** [str.isspace] on one ASCII character. *)
Definition isspace (c : ascii) : bool :=
  let n := nat_of_ascii c in
  ((9 <=? n)%nat && (n <=? 13)%nat) || (n =? 32)%nat.

Definition is_digit (c : ascii) : bool :=
  let n := nat_of_ascii c in (48 <=? n)%nat && (n <=? 57)%nat.

Definition digit_val (c : ascii) : Z := Z.of_nat (nat_of_ascii c) - 48.

Definition lower (c : ascii) : ascii :=
  let n := nat_of_ascii c in
  if (65 <=? n)%nat && (n <=? 90)%nat then ascii_of_nat (n + 32) else c.

Fixpoint lower_string (s : string) : string :=
  match s with
  | EmptyString => EmptyString
  | String c r => String (lower c) (lower_string r)
  end.

(** [s.split()]: the maximal runs of non-whitespace characters. *)
Fixpoint split_ws (s : string) : list string :=
  match s with
  | EmptyString => []
  | String c r =>
      if isspace c then split_ws r
      else match r with
           | EmptyString => [String c EmptyString]
           | String c' _ =>
               if isspace c' then String c EmptyString :: split_ws r
               else match split_ws r with
                    | t :: ts => String c t :: ts
                    | [] => [String c EmptyString]
                    end
           end
  end.

(** [s.split(sep)] for a one-character separator. *)
Fixpoint split_on (sep : ascii) (s : string) : list string :=
  match s with
  | EmptyString => [EmptyString]
  | String c r =>
      if Ascii.eqb c sep then EmptyString :: split_on sep r
      else match split_on sep r with
           | t :: ts => String c t :: ts
           | [] => [String c EmptyString]
           end
  end.

Fixpoint lstrip (s : string) : string :=
  match s with
  | EmptyString => EmptyString
  | String c r => if isspace c then lstrip r else s
  end.

Fixpoint rstrip (s : string) : string :=
  match s with
  | EmptyString => EmptyString
  | String c r =>
      match rstrip r with
      | EmptyString => if isspace c then EmptyString else String c EmptyString
      | r' => String c r'
      end
  end.

Definition strip (s : string) : string := rstrip (lstrip s).

(** [s.rstrip('/')] and [s.rfind('/') + 1] as used by [os.path]. *)
Fixpoint rstrip_char (ch : ascii) (s : string) : string :=
  match s with
  | EmptyString => EmptyString
  | String c r =>
      match rstrip_char ch r with
      | EmptyString => if Ascii.eqb c ch then EmptyString else String c EmptyString
      | r' => String c r'
      end
  end.

Fixpoint all_char (ch : ascii) (s : string) : bool :=
  match s with
  | EmptyString => true
  | String c r => Ascii.eqb c ch && all_char ch r
  end.

Fixpoint has_char (ch : ascii) (s : string) : bool :=
  match s with
  | EmptyString => false
  | String c r => Ascii.eqb c ch || has_char ch r
  end.

(** [p[:p.rfind('/') + 1]] *)
Fixpoint head_upto_last (ch : ascii) (s : string) : string :=
  match s with
  | EmptyString => EmptyString
  | String c r => if has_char ch s then String c (head_upto_last ch r) else EmptyString
  end.

(** [p[p.rfind('/') + 1:]] *)
Fixpoint tail_after_last (ch : ascii) (s : string) : string :=
  match s with
  | EmptyString => EmptyString
  | String c r => if has_char ch s then tail_after_last ch r else s
  end.

Definition slash : ascii := "/"%char.

(** [posixpath.dirname] *)
Definition dirname (p : string) : string :=
  let head := head_upto_last slash p in
  if negb (String.eqb head "") && negb (all_char slash head)
  then rstrip_char slash head else head.

(** [posixpath.basename] *)
Definition basename (p : string) : string := tail_after_last slash p.

Definition startswith_char (ch : ascii) (s : string) : bool :=
  match s with
  | String c _ => Ascii.eqb c ch
  | EmptyString => false
  end.

Fixpoint endswith_char (ch : ascii) (s : string) : bool :=
  match s with
  | EmptyString => false
  | String c EmptyString => Ascii.eqb c ch
  | String _ r => endswith_char ch r
  end.

(** [posixpath.join(a, *p)] *)
Definition join2 (path b : string) : string :=
  if startswith_char slash b then b
  else if String.eqb path "" || endswith_char slash path then path ++ b
  else path ++ "/" ++ b.

Definition join (a : string) (p : list string) : string := fold_left join2 p a.

(** ** Python 2 numeric builtins

    A Python [float] is an IEEE 754 binary64 value, here a [spec_float]
    with precision 53 and maximal exponent 1024. *)

Definition prec : Z := 53.
Definition emax : Z := 1024.

(** The values the coordinate helpers are handed: the text of an XML
    attribute, the integer default [0], or (when called directly) a
    float. *)
Inductive pyval : Type :=
| PyInt (z : Z)
| PyStr (s : string)
| PyFloat (f : spec_float).

Fixpoint digits_value (s : string) (acc : Z) : option Z :=
  match s with
  | EmptyString => Some acc
  | String c r =>
      if is_digit c then digits_value r (acc * 10 + digit_val c) else None
  end.

Fixpoint span_digits (s : string) : string * string :=
  match s with
  | EmptyString => (EmptyString, EmptyString)
  | String c r =>
      if is_digit c
      then let '(d, rest) := span_digits r in (String c d, rest)
      else (EmptyString, s)
  end.

Definition parse_sign (s : string) : bool * string :=
  match s with
  | String c r =>
      if Ascii.eqb c "-"%char then (true, r)
      else if Ascii.eqb c "+"%char then (false, r)
      else (false, s)
  | EmptyString => (false, s)
  end.

(** [int(s)] on text: surrounding whitespace, an optional sign, then one
    or more decimal digits. *)
Definition int_of_string (s : string) : result Z :=
  let '(neg, r) := parse_sign (strip s) in
  match r with
  | EmptyString => Raise ValueError
  | _ => match digits_value r 0 with
         | Some n => Ok (cond_Zopp neg n)
         | None => Raise ValueError
         end
  end.

(** The binary64 value nearest to [(-1)^neg * m * 10^e] (ties to even),
    as a correctly rounded [strtod] returns it. *)
Definition float_of_decimal (neg : bool) (m e : Z) : spec_float :=
  match m with
  | Zpos p =>
      if (0 <=? e)%Z
      then binary_normalize prec emax (cond_Zopp neg (m * 10 ^ e)) 0 neg
      else SFdiv prec emax (S754_finite neg p 0)
                           (S754_finite false (Z.to_pos (10 ^ (- e))) 0)
  | _ => S754_zero neg
  end.

(** The exponent part of a float literal: empty, or [e]/[E], an optional
    sign and one or more digits. *)
Definition parse_exponent (s : string) : option Z :=
  match s with
  | EmptyString => Some 0
  | String c r =>
      if Ascii.eqb (lower c) "e"%char
      then let '(neg, ds) := parse_sign r in
           match ds with
           | EmptyString => None
           | _ => option_map (cond_Zopp neg) (digits_value ds 0)
           end
      else None
  end.

(** [float(s)] on text: surrounding whitespace, an optional sign, then
    [inf], [infinity], [nan] (any case) or a decimal literal with at
    least one digit in its integer or fractional part. *)
Definition float_of_string (s : string) : result spec_float :=
  let '(neg, body) := parse_sign (strip s) in
  let low := lower_string body in
  if String.eqb low "inf" || String.eqb low "infinity" then Ok (S754_infinity neg)
  else if String.eqb low "nan" then Ok S754_nan
  else
    let '(ip, r1) := span_digits body in
    let '(fp, r2) :=
      match r1 with
      | String c r => if Ascii.eqb c "."%char then span_digits r else (EmptyString, r1)
      | EmptyString => (EmptyString, r1)
      end in
    if String.eqb ip "" && String.eqb fp "" then Raise ValueError
    else
      match digits_value (ip ++ fp) 0, parse_exponent r2 with
      | Some m, Some e =>
          Ok (float_of_decimal neg m (e - Z.of_nat (String.length fp)))
      | _, _ => Raise ValueError
      end.

(** [float(v)]; an integer too large for a float raises. *)
Definition py_float (v : pyval) : result spec_float :=
  match v with
  | PyInt z =>
      match binary_normalize prec emax z 0 false with
      | S754_infinity _ => Raise OverflowError
      | f => Ok f
      end
  | PyStr s => float_of_string s
  | PyFloat f => Ok f
  end.

(** [round(f)]: the nearest integer as a float, halfway cases away from
    zero; zeros, infinities and NaN round to themselves. *)
Definition py_round (f : spec_float) : spec_float :=
  match f with
  | S754_finite s m e =>
      if (0 <=? e)%Z then f
      else binary_normalize prec emax
             (cond_Zopp s ((Zpos m + 2 ^ (- e - 1)) / 2 ^ (- e))) 0 s
  | _ => f
  end.

(** [int(f)] on a float: truncation toward zero. *)
Definition int_of_float (f : spec_float) : result Z :=
  match f with
  | S754_zero _ => Ok 0
  | S754_infinity _ => Raise OverflowError
  | S754_nan => Raise ValueError
  | S754_finite s m e =>
      Ok (cond_Zopp s (if (0 <=? e)%Z then Zpos m * 2 ^ e else Zpos m / 2 ^ (- e)))
  end.

(** [int(v)] *)
Definition py_int (v : pyval) : result Z :=
  match v with
  | PyInt z => Ok z
  | PyStr s => int_of_string s
  | PyFloat f => int_of_float f
  end.

(** [str(n)] on an integer. *)
Definition py_str (z : Z) : string := NilZero.string_of_int (Z.to_int z).

(** ** ElementTree documents *)

(** An [xml.etree.ElementTree.Element]: tag, attribute dictionary, text
    and child elements in document order.  The XML parser rejects a
    duplicated attribute, so the first binding of a name is the only one. *)
#[warnings="-register-all"] Inductive element : Type :=
| Element (tag : string) (attrib : list (string * string))
          (text : option string) (children : list element).

Definition etag (e : element) : string :=
  match e with Element t _ _ _ => t end.
Definition eattrib (e : element) : list (string * string) :=
  match e with Element _ a _ _ => a end.
Definition etext (e : element) : option string :=
  match e with Element _ _ t _ => t end.
Definition echildren (e : element) : list element :=
  match e with Element _ _ _ c => c end.

Fixpoint assoc (k : string) (l : list (string * string)) : option string :=
  match l with
  | [] => None
  | (k', v) :: l' => if String.eqb k k' then Some v else assoc k l'
  end.

(** [e.get(key)]: [None] when the attribute is absent. *)
Definition get (e : element) (key : string) : option string :=
  assoc key (eattrib e).

(** [e.get(key, default)] with the integer default of the helpers. *)
Definition get_default (e : element) (key : string) (default : Z) : pyval :=
  match get e key with
  | Some s => PyStr s
  | None => PyInt default
  end.

(** [e.findall('a/b/c')]: the path is a list of tags, each step selects
    the children with that tag, in document order. *)
Fixpoint findall (path : list string) (e : element) : list element :=
  match path with
  | [] => [e]
  | t :: path' =>
      flat_map (findall path')
               (List.filter (fun c => String.eqb (etag c) t) (echildren e))
  end.

(** [e.find('a/b/c')]: the first match, or [None]. *)
Definition find (path : list string) (e : element) : option element :=
  head (findall path e).

(** [e.iter()]: the element and all its descendants, in document order. *)
Fixpoint iter (e : element) : list element :=
  match e with
  | Element _ _ _ cs => e :: flat_map iter cs
  end.

(** Using [None] where an element is expected ([None.get], [None.find],
    [None.text]) raises [AttributeError]. *)
Definition deref {A : Type} (o : option A) : result A :=
  match o with
  | Some a => Ok a
  | None => Raise AttributeError
  end.

(** [a + b] on two values that must both be [str]. *)
Definition str_add (a b : option string) : result string :=
  match a, b with
  | Some x, Some y => Ok (x ++ y)
  | _, _ => Raise TypeError
  end.

(** [element.tag.rsplit('}', -1)[-1]]: the tag without its namespace. *)
Definition local_tag (e : element) : string :=
  List.last (split_on "}"%char (etag e)) EmptyString.

(** ** The design model (package [core]) *)

(** Modelled from the spec: the shape classes of [core.shape], which the
    parser only constructs and whose [type] field it reads.  A shape is a
    tagged variant over circle, line, polygon and rectangle carrying its
    geometry; [Polygon.add_point] appends a point. *)
Record Point : Type := { px : Z; py : Z }.

Inductive Shape : Type :=
| Circle (x y radius : Z)
| Line (p1 p2 : Point)
| Polygon (points : list Point)
| Rectangle (x y width height : Z).

Definition shape_type (s : Shape) : string :=
  match s with
  | Circle _ _ _ => "circle"
  | Line _ _ => "line"
  | Polygon _ => "polygon"
  | Rectangle _ _ _ _ => "rectangle"
  end.

Definition add_point (pts : list Point) (x y : Z) : list Point :=
  pts ++ [{| px := x; py := y |}].

(** Modelled from the spec: [core.components].  A pin has a number and
    one position used for both of its end points; a body owns an ordered
    collection of shapes and one of pins; a component has an id,
    attributes and symbols, a symbol has bodies. *)
Record Pin : Type := { pin_number : string; pin_p1 : Point; pin_p2 : Point }.

Record Body : Type := { shapes : list Shape; pins : list Pin }.

Definition add_shape (b : Body) (s : Shape) : Body :=
  {| shapes := shapes b ++ [s]; pins := pins b |}.

Definition add_pin (b : Body) (p : Pin) : Body :=
  {| shapes := shapes b; pins := pins b ++ [p] |}.

Record Symbol : Type := { bodies : list Body }.

Record Component : Type := {
  name : option string;
  attributes : list (string * option string);
  symbols : list Symbol
}.

(** Modelled from the spec: [core.component_instance], [core.net] and
    [core.design].  A component instance links a title to a component id
    and carries its placement attributes; a net point has an identifier
    and a position; a net is a group of connected terminal identifiers;
    a design collects the components, component instances and nets that
    are added to it. *)
Record SymbolAttribute : Type := { sa_x : Z; sa_y : Z; sa_rotation : Q }.

Record ComponentInstance : Type := {
  instance_id : option string;
  library_id : option string;
  symbol_index : Z;
  symbol_attributes : list SymbolAttribute
}.

Record NetPoint : Type := { point_id : string; np_x : Z; np_y : Z }.

Definition terminal : Type := (option string * option string).

Record Net : Type := { net_terminals : list terminal }.

Record Design : Type := {
  design_components : list (option string * Component);
  design_component_instances : list ComponentInstance;
  design_nets : list Net
}.

(** ** Coordinate helpers *)

Definition make_x (x : pyval) : result Z :=
  let* f := py_float x in int_of_float (py_round f).

Definition make_y (y : pyval) : result Z :=
  let* f := py_float y in
  let* n := int_of_float (py_round f) in
  Ok (- n).

Definition make_length (v : pyval) : result Z :=
  let* f := py_float v in int_of_float (py_round f).

Definition get_x (e : element) (name : string) : result Z :=
  make_x (get_default e name 0).

Definition get_y (e : element) (name : string) : result Z :=
  make_y (get_default e name 0).

Definition get_length (e : element) (name : string) : result Z :=
  make_length (get_default e name 0).

(** ** The outside world

    What the parser asks of its environment: [os.path.exists], reading a
    file as an XML document ([ElementTree(file=...)], which raises when
    the file cannot be opened or is not well-formed XML), and
    [library.fritzing.lookup_part], which maps a part path and a Fritzing
    version to the path of a library copy of the part, or to [None]. *)
Record world : Type := {
  path_exists : string -> bool;
  ElementTree : string -> result element;
  lookup_part : string -> string -> option string
}.

(** ** The rotation table *)

Definition matrix : Type := (Z * Z * Z * Z).

(** [MATRIX2ROTATION]: rotations in units of pi radians. *)
Definition MATRIX2ROTATION : gmap matrix Q :=
  <[(1, 0, 0, 1) := 0 # 1]>
  (<[(0, 1, -1, 0) := 1 # 2]>
  (<[(-1, 0, 0, -1) := 1 # 1]>
  (<[(0, -1, 1, 0) := 3 # 2]> ∅))).

(** [MATRIX2ROTATION.get(m, 0.0)] *)
Definition matrix2rotation (m : matrix) : Q :=
  default (0 # 1) (MATRIX2ROTATION !! m).

(** [tuple(int(xform.get(key, 0)) for key in ('m11', 'm12', 'm21', 'm22'))] *)
Definition xform_matrix (xform : element) : result matrix :=
  let* m11 := py_int (get_default xform "m11" 0) in
  let* m12 := py_int (get_default xform "m12" 0) in
  let* m21 := py_int (get_default xform "m21" 0) in
  let* m22 := py_int (get_default xform "m22" 0) in
  Ok (m11, m12, m21, m22).

(** The rotation of an optional transform block, as
    [parse_component_instance] computes it. *)
Definition decode_rotation (xform : option element) : result Q :=
  match xform with
  | None => Ok (0 # 1)
  | Some xf => let* m := xform_matrix xf in Ok (matrix2rotation m)
  end.

(** ** ComponentParser *)

Record ComponentParser : Type := {
  next_pin_number : Z;
  idref : option string;
  path : string;
  body : Body;
  terminals : gmap string (option string)
}.

(** [ComponentParser.__init__], with the empty body and terminal map the
    fields hold until [parse] fills them. *)
Definition ComponentParser_init (idref : option string) (path : string)
  : ComponentParser :=
  {| next_pin_number := 0; idref := idref; path := path;
     body := {| shapes := []; pins := [] |}; terminals := ∅ |}.

Definition with_body (cp : ComponentParser) (b : Body) : ComponentParser :=
  {| next_pin_number := next_pin_number cp; idref := idref cp; path := path cp;
     body := b; terminals := terminals cp |}.

Definition get_next_pin_number (cp : ComponentParser) : string * ComponentParser :=
  let nextpn := next_pin_number cp in
  (py_str nextpn,
   {| next_pin_number := nextpn + 1; idref := idref cp; path := path cp;
      body := body cp; terminals := terminals cp |}).

Definition parse_terminals (tree : element) : gmap string (option string) :=
  fold_left
    (fun (terms : gmap string (option string)) conn =>
       match find ["views"; "schematicView"; "p"] conn with
       | None => terms
       | Some plug =>
           let cid := match get plug "terminalId" with
                      | None => get plug "svgId"
                      | Some c => Some c
                      end in
           match cid with
           | Some c => <[c := get conn "id"]> terms
           | None => terms
           end
       end)
    (findall ["connectors"; "connector"] tree) ∅.

Definition parse_rect (rect : element) : result (list Shape) :=
  let* x := get_x rect "x" in
  let* y := get_y rect "y" in
  let* width := get_length rect "width" in
  let* height := get_length rect "height" in
  Ok [Rectangle x (y - height) width height].

Definition parse_line (rect : element) : result (list Shape) :=
  let* x1 := get_x rect "x1" in
  let* y1 := get_y rect "y1" in
  let* x2 := get_x rect "x2" in
  let* y2 := get_y rect "y2" in
  Ok [Line {| px := x1; py := y1 |} {| px := x2; py := y2 |}].

(** [x, y = point.split(',')]: unpacking needs exactly two fields. *)
Definition unpack2 (l : list string) : result (string * string) :=
  match l with
  | [x; y] => Ok (x, y)
  | _ => Raise ValueError
  end.

(** [poly.get('points', '').split()] *)
Definition point_tokens (poly : element) : list string :=
  split_ws (default EmptyString (get poly "points")).

(** One iteration of the polygon loop. *)
Definition polygon_step (pts : list Point) (point : string) : result (list Point) :=
  if negb (String.eqb point "") then
    let* xy := unpack2 (split_on ","%char point) in
    let* vx := make_x (PyStr (fst xy)) in
    let* vy := make_y (PyStr (snd xy)) in
    Ok (add_point pts vx vy)
  else Ok pts.

Definition parse_polygon (poly : element) : result (list Shape) :=
  let* pts := for_each polygon_step [] (point_tokens poly) in
  let pts' := match pts with
              | p0 :: _ => add_point pts (px p0) (py p0)
              | [] => pts
              end in
  Ok [Polygon pts'].

(** One iteration of the polyline loop, on [(shapes, last_point)]. *)
Definition polyline_step (acc : list Shape * option Point) (point : string)
  : result (list Shape * option Point) :=
  if negb (String.eqb point "") then
    let* xy := unpack2 (split_on ","%char point) in
    let* vx := make_x (PyStr (fst xy)) in
    let* vy := make_y (PyStr (snd xy)) in
    let pt := {| px := vx; py := vy |} in
    match snd acc with
    | Some last_point => Ok ((fst acc ++ [Line last_point pt])%list, Some pt)
    | None => Ok (fst acc, Some pt)
    end
  else Ok acc.

Definition parse_polyline (poly : element) : result (list Shape) :=
  let* acc := for_each polyline_step ([], None) (point_tokens poly) in
  Ok (fst acc).

Definition parse_circle (circle : element) : result (list Shape) :=
  let* x := get_x circle "cx" in
  let* y := get_y circle "cy" in
  let* r := get_length circle "r" in
  Ok [Circle x y r].

(** [element.get('id') in self.terminals]; [None] is never a key. *)
Definition is_terminal (cp : ComponentParser) (e : element) : bool :=
  match get e "id" with
  | Some k => bool_decide (is_Some (terminals cp !! k))
  | None => false
  end.

(** [get_pin]: integer operands, so [/] is floor division. *)
Definition get_pin (cp : ComponentParser) (shape : Shape) (e : element)
  : option Pin * ComponentParser :=
  if negb (is_terminal cp e) then (None, cp)
  else
    let mk x y :=
      let '(n, cp') := get_next_pin_number cp in
      (Some {| pin_number := n; pin_p1 := {| px := x; py := y |};
               pin_p2 := {| px := x; py := y |} |}, cp') in
    match shape with
    | Rectangle x y width height => mk (x + width / 2) (y + height / 2)
    | Circle x y _ => mk x y
    | _ => (None, cp)
    end.

(** The shapes of one SVG element, by local tag name. *)
Definition element_shapes (e : element) : result (list Shape) :=
  let tag := local_tag e in
  if String.eqb tag "circle" then parse_circle e
  else if String.eqb tag "rect" then parse_rect e
  else if String.eqb tag "line" then parse_line e
  else if String.eqb tag "polygon" then parse_polygon e
  else if String.eqb tag "polyline" then parse_polyline e
  else Ok [].

(** One iteration of the inner loop of [parse_svg]: the shape is added
    to the body, then its pin, if it has one. *)
Definition shape_step (e : element) (cp : ComponentParser) (shape : Shape)
  : ComponentParser :=
  let cp1 := with_body cp (add_shape (body cp) shape) in
  match get_pin cp1 shape e with
  | (Some pin, cp2) => with_body cp2 (add_pin (body cp2) pin)
  | (None, cp2) => cp2
  end.

(** The inner loop of [parse_svg]: [for shape in shapes]. *)
Definition add_shapes (e : element) (cp : ComponentParser) (shs : list Shape)
  : ComponentParser :=
  fold_left (shape_step e) shs cp.

(** The outer loop of [parse_svg]: [for element in tree.getroot().iter()]. *)
Definition svg_step (cp : ComponentParser) (e : element) : result ComponentParser :=
  let* shs := element_shapes e in Ok (add_shapes e cp shs).

Definition parse_elements (cp : ComponentParser) (es : list element)
  : result ComponentParser :=
  for_each svg_step cp es.

(** ** The parse session *)

Record Fritzing : Type := {
  points : gmap (option string) (gmap string NetPoint);
  component_instances : gmap (option string) ComponentInstance;
  connects : list (list terminal);
  components : gmap (option string) Component;
  fritzing_version : option string
}.

(** [Fritzing.__init__]; [fritzing_version] is set by [parse] only. *)
Definition Fritzing_init : Fritzing :=
  {| points := ∅; component_instances := ∅; connects := [];
     components := ∅; fritzing_version := None |}.

Definition with_points (st : Fritzing)
    (p : gmap (option string) (gmap string NetPoint)) : Fritzing :=
  {| points := p; component_instances := component_instances st;
     connects := connects st; components := components st;
     fritzing_version := fritzing_version st |}.

Definition with_connects (st : Fritzing) (c : list (list terminal)) : Fritzing :=
  {| points := points st; component_instances := component_instances st;
     connects := c; components := components st;
     fritzing_version := fritzing_version st |}.

Definition with_components (st : Fritzing)
    (c : gmap (option string) Component) : Fritzing :=
  {| points := points st; component_instances := component_instances st;
     connects := connects st; components := c;
     fritzing_version := fritzing_version st |}.

Definition with_component_instances (st : Fritzing)
    (c : gmap (option string) ComponentInstance) : Fritzing :=
  {| points := points st; component_instances := c;
     connects := connects st; components := components st;
     fritzing_version := fritzing_version st |}.

Definition with_version (st : Fritzing) (v : option string) : Fritzing :=
  {| points := points st; component_instances := component_instances st;
     connects := connects st; components := components st;
     fritzing_version := v |}.

Definition wire_sentinel : string := "WireModuleID".
Definition breadboard : string := "breadboardbreadboard".

Definition enumerate {A : Type} (l : list A) : list (nat * A) :=
  combine (seq 0 (length l)) l.

(** The connects of one connector, breadboard ones left out. *)
Definition connector_connects (connector : element) : list terminal :=
  List.map (fun c => (get c "modelIndex", get c "connectorId"))
    (List.filter
       (fun c => negb (bool_decide (get c "layer" = Some breadboard)))
       (findall ["connects"; "connect"] connector)).

Definition add_connects (st : Fritzing) (index : option string) (view : element)
  : Fritzing :=
  fold_left
    (fun st connector =>
       match connector_connects connector with
       | [] => st
       | cs => with_connects st
                 (connects st ++ [(index, get connector "connectorId") :: cs])
       end)
    (findall ["connectors"; "connector"] view) st.

(** One iteration of the loop of [parse_wire]. *)
Definition wire_step (index : option string) (geom : option element)
    (st : Fritzing) (ic : nat * element) : result Fritzing :=
  let cid := get (snd ic) "connectorId" in
  let* pid0 := str_add index (Some ".") in
  let* pid := str_add (Some pid0) cid in
  let coord_names := if Nat.eqb (fst ic) 0 then ("x", "y") else ("x2", "y2") in
  let* g := deref geom in
  let* x := get_x g (fst coord_names) in
  let* y := get_y g (snd coord_names) in
  match points st !! index, cid with
  | Some d, Some c =>
      Ok (with_points st
            (<[index := <[c := {| point_id := pid; np_x := x; np_y := y |}]> d]>
               (points st)))
  | _, _ => Raise KeyError
  end.

Definition parse_wire (st : Fritzing) (inst : element) : result Fritzing :=
  match find ["views"; "schematicView"] inst with
  | None => Ok st
  | Some view =>
      let index := get inst "modelIndex" in
      let geom := find ["geometry"] view in
      let st1 := with_points st (<[index := ∅]> (points st)) in
      let* st2 := for_each (wire_step index geom) st1
                    (enumerate (findall ["connectors"; "connector"] view)) in
      Ok (add_connects st2 index view)
  end.

(** [build_nets]: the body is [return []]. *)
Definition build_nets (st : Fritzing) : list Net := [].

Section Session.

Variable w : world.

Definition parse_svg (cp : ComponentParser) (tree : element) (fzp_path : string)
  : result ComponentParser :=
  match find ["views"; "schematicView"; "layers"] tree with
  | None => Ok cp
  | Some layers =>
      match get layers "image" with
      | None => Ok cp
      | Some image =>
          let fzp_dir := dirname fzp_path in
          let parts_dir := dirname fzp_dir in
          let svg_path := join parts_dir ["svg"; basename fzp_dir; image] in
          if negb (path_exists w svg_path) then Ok cp
          else
            let* root := ElementTree w svg_path in
            parse_elements cp (iter root)
      end
  end.

(** [ComponentParser.parse].  The component, its symbol and its body
    are created first and the body is filled in place afterwards; the
    returned component is the one whose only body holds the final
    shapes and pins. *)
Definition ComponentParser_parse (cp : ComponentParser) : result Component :=
  let* tree := ElementTree w (path cp) in
  let* label := deref (find ["label"] tree) in
  let cp1 := {| next_pin_number := next_pin_number cp; idref := idref cp;
                path := path cp; body := body cp;
                terminals := parse_terminals tree |} in
  let* cp2 := parse_svg cp1 tree (path cp) in
  Ok {| name := idref cp;
        attributes := [("_prefix", etext label)];
        symbols := [{| bodies := [body cp2] |}] |}.

(** Python truth of a path: [None] and the empty string are false. *)
Definition truthy (p : option string) : bool :=
  match p with
  | Some s => negb (String.eqb s "")
  | None => false
  end.

Definition ensure_component (st : Fritzing) (inst : element)
  : result (option Component * Fritzing) :=
  let idref := get inst "moduleIdRef" in
  match components st !! idref with
  | Some c => Ok (Some c, st)
  | None =>
      let path := get inst "path" in
      if negb (truthy path) then Ok (None, st)
      else
        let p := default EmptyString path in
        let* path' :=
          if negb (path_exists w p)
          then let* v := deref (fritzing_version st) in Ok (lookup_part w p v)
          else Ok path in
        if negb (truthy path') || negb (path_exists w (default EmptyString path'))
        then Ok (None, st)
        else
          let* c := ComponentParser_parse
                      (ComponentParser_init idref (default EmptyString path')) in
          Ok (Some c, with_components st (<[idref := c]> (components st)))
  end.

Definition parse_component_instance (st : Fritzing) (inst : element)
  : result Fritzing :=
  match find ["views"; "schematicView"] inst with
  | None => Ok st
  | Some view =>
      if bool_decide (get view "layer" = Some breadboard) then Ok st
      else
        let* r := ensure_component st inst in
        match r with
        | (None, st1) => Ok st1
        | (Some cpt, st1) =>
            let index := get inst "modelIndex" in
            let idref := get inst "moduleIdRef" in
            let* title_el := deref (find ["title"] inst) in
            let title := etext title_el in
            let* geom := deref (find ["geometry"] view) in
            let xform := find ["transform"] geom in
            let* rotation := decode_rotation xform in
            let* x := get_x geom "x" in
            let* y := get_y geom "y" in
            let compinst :=
              {| instance_id := title; library_id := idref; symbol_index := 0;
                 symbol_attributes :=
                   [{| sa_x := x; sa_y := y; sa_rotation := rotation |}] |} in
            let st2 := with_component_instances st1
                         (<[index := compinst]> (component_instances st1)) in
            Ok (add_connects st2 index view)
        end
  end.

Definition parse_instance (st : Fritzing) (instance : element) : result Fritzing :=
  if bool_decide (get instance "moduleIdRef" = Some wire_sentinel)
  then parse_wire st instance
  else parse_component_instance st instance.

(** The instance loop of [parse]. *)
Definition parse_instances (st : Fritzing) (instances : list element)
  : result Fritzing :=
  for_each parse_instance st instances.

(** [Fritzing.parse] on a fresh session. *)
Definition parse (filename : string) : result Design :=
  let* root := ElementTree w filename in
  let st0 := with_version Fritzing_init
               (Some (default "0" (get root "fritzingVersion"))) in
  let* st := parse_instances st0 (findall ["instances"; "instance"] root) in
  Ok {| design_components := map_to_list (components st);
        design_component_instances :=
          List.map snd (map_to_list (component_instances st));
        design_nets := build_nets st |}.

End Session.

(** ** Vocabulary of the statements *)






Fixpoint map_result {A B : Type} (f : A -> result B) (l : list A)
  : result (list B) :=
  match l with
  | [] => Ok []
  | a :: l' =>
      let* b := f a in
      let* bs := map_result f l' in
      Ok (b :: bs)
  end.

(** The point a token [x,y] of a [points] attribute denotes. *)
Definition point_of_token (point : string) : result Point :=
  let* xy := unpack2 (split_on ","%char point) in
  let* vx := make_x (PyStr (fst xy)) in
  let* vy := make_y (PyStr (snd xy)) in
  Ok {| px := vx; py := vy |}.

(** The points a [points] attribute parses to. *)
Definition parsed_points (poly : element) : result (list Point) :=
  map_result point_of_token (point_tokens poly).

(** Where the pin of a shape sits: the centre of a rectangle or of a
    circle; other shapes carry no pin. *)
Definition pin_point (s : Shape) : option Point :=
  match s with
  | Rectangle x y width height =>
      Some {| px := x + width / 2; py := y + height / 2 |}
  | Circle x y _ => Some {| px := x; py := y |}
  | _ => None
  end.

Definition mk_pin (n : Z) (pt : Point) : Pin :=
  {| pin_number := py_str n; pin_p1 := pt; pin_p2 := pt |}.

(** Pins at the given points, numbered [n], [n + 1], ... *)
Fixpoint number_pins (n : Z) (pts : list Point) : list Pin :=
  match pts with
  | [] => []
  | pt :: pts' => mk_pin n pt :: number_pins (n + 1) pts'
  end.

(** The pin positions the shapes of one element give rise to. *)
Definition owned_pin_points (cp : ComponentParser) (e : element)
    (shs : list Shape) : list Point :=
  if is_terminal cp e then omap pin_point shs else [].

(** The pin positions of a run of elements with their shapes, in order. *)
Fixpoint all_pin_points (cp : ComponentParser) (es : list element)
    (shss : list (list Shape)) : list Point :=
  match es, shss with
  | e :: es', shs :: shss' =>
      (owned_pin_points cp e shs ++ all_pin_points cp es' shss')%list
  | _, _ => []
  end.

(** An instance path that leads to no readable part file: absent or
    empty, or naming no existing file while the library lookup gives
    nothing, or nothing that exists. *)
Definition unresolvable (w : world) (version : option string)
    (path : option string) : Prop :=
  truthy path = false \/
  exists p v, path = Some p /\ version = Some v /\ path_exists w p = false /\
    (truthy (lookup_part w p v) = false \/
     exists q, lookup_part w p v = Some q /\ path_exists w q = false).

(** Every cached component is the outcome of a successful
    [ComponentParser.parse] for its key. *)
Definition cache_parsed (w : world) (st : Fritzing) : Prop :=
  forall k c, components st !! k = Some c ->
    exists p, ComponentParser_parse w (ComponentParser_init k p) = Ok c.

(** The terminals a list of connection records refers to. *)
Definition referenced (cs : list (list terminal)) (t : terminal) : Prop :=
  exists record, In record cs /\ In t record.


(** ** Sample documents

    A small part library (a resistor with two terminals, and a part file
    without a label) and sketch instances placed over it. *)
Module Sample.

Definition El (tag : string) (attrib : list (string * string))
    (children : list element) : element :=
  Element tag attrib None children.

Definition Txt (tag : string) (text : string) : element :=
  Element tag [] (Some text) [].

Definition plug_connector (id plug_attr plug_id : string) : element :=
  El "connector" [("id", id)]
    [El "views" []
       [El "schematicView" [] [El "p" [(plug_attr, plug_id)] []]]].

Definition resistor_fzp : element :=
  El "module" [("moduleId", "ResistorModuleID")]
    [Txt "label" "R";
     El "connectors" []
       [plug_connector "connector0" "svgId" "pin0";
        plug_connector "connector1" "terminalId" "pin1";
        El "connector" [("id", "connector2")] []];
     El "views" []
       [El "schematicView" [] [El "layers" [("image", "resistor.svg")] []]]].

Definition resistor_svg : element :=
  El "{http://www.w3.org/2000/svg}svg" []
    [El "{http://www.w3.org/2000/svg}g" [("id", "schematic")]
       [El "{http://www.w3.org/2000/svg}rect"
           [("id", "body"); ("x", "10"); ("y", "20"); ("width", "4"); ("height", "6")] [];
        El "{http://www.w3.org/2000/svg}polygon"
           [("id", "pin0"); ("points", "0,0 10,0 10,10")] [];
        El "{http://www.w3.org/2000/svg}rect"
           [("id", "pin0"); ("x", "0"); ("y", "1.5"); ("width", "5"); ("height", "2")] [];
        El "{http://www.w3.org/2000/svg}polyline"
           [("points", "0,0 3,0 3,3")] [];
        El "{http://www.w3.org/2000/svg}circle"
           [("id", "pin1"); ("cx", "30"); ("cy", "2.4"); ("r", "1")] []]].

Definition nolabel_fzp : element :=
  El "module" [("moduleId", "NoLabelModuleID")] [El "connectors" [] []].

Definition connect (index cid layer : string) : element :=
  El "connect" [("connectorId", cid); ("modelIndex", index); ("layer", layer)] [].

Definition connector (cid : string) (cs : list element) : element :=
  El "connector" [("connectorId", cid)] [El "connects" [] cs].

Definition schematic_view (geometry : element) (connectors : list element)
  : element :=
  El "views" []
    [El "schematicView" [("layer", "schematicView")]
       [geometry; El "connectors" [] connectors]].

(** A resistor placed with its part path, rotated by a quarter turn. *)
Definition inst_r1 : element :=
  El "instance"
    [("moduleIdRef", "ResistorModuleID"); ("modelIndex", "2");
     ("path", "parts/core/resistor.fzp")]
    [Txt "title" "R1";
     schematic_view
       (El "geometry" [("x", "10.4"); ("y", "20.6")]
          [El "transform" [("m11", "0"); ("m12", "1"); ("m21", "-1"); ("m22", "0")] []])
       [connector "connector0" [connect "1" "connector1" "schematicTrace"]]].

(** A second resistor that carries no [path] attribute. *)
Definition r2_geometry : element := El "geometry" [("x", "40"); ("y", "7")] [].

Definition r2_view : element :=
  El "schematicView" [("layer", "schematicView")]
    [r2_geometry; El "connectors" [] []].

Definition inst_r2 : element :=
  El "instance" [("moduleIdRef", "ResistorModuleID"); ("modelIndex", "5")]
    [Txt "title" "R2"; El "views" [] [r2_view]].

(** The same resistor with its part path. *)
Definition inst_r2_placed : element :=
  El "instance"
    [("moduleIdRef", "ResistorModuleID"); ("modelIndex", "5");
     ("path", "parts/core/resistor.fzp")]
    [Txt "title" "R2"; El "views" [] [r2_view]].

(** A part whose file does not exist. *)
Definition inst_ghost : element :=
  El "instance"
    [("moduleIdRef", "GhostModuleID"); ("modelIndex", "6");
     ("path", "parts/core/ghost.fzp")]
    [Txt "title" "G1";
     schematic_view (El "geometry" [("x", "1"); ("y", "2")] []) []].

(** An instance of the missing part's type whose path names a file that
    exists. *)
Definition inst_ghost_found : element :=
  El "instance"
    [("moduleIdRef", "GhostModuleID"); ("modelIndex", "10");
     ("path", "parts/core/resistor.fzp")]
    [Txt "title" "G2";
     schematic_view (El "geometry" [("x", "1"); ("y", "2")] []) []].

(** A resistor with its part path but without a title element. *)
Definition plain_view : element :=
  El "schematicView" [("layer", "schematicView")]
    [El "geometry" [("x", "3"); ("y", "4")] []; El "connectors" [] []].

Definition inst_untitled : element :=
  El "instance"
    [("moduleIdRef", "ResistorModuleID"); ("modelIndex", "7");
     ("path", "parts/core/resistor.fzp")]
    [El "views" [] [plain_view]].

(** A part whose file exists but has no label. *)
Definition inst_nolabel : element :=
  El "instance"
    [("moduleIdRef", "NoLabelModuleID"); ("modelIndex", "8");
     ("path", "parts/core/nolabel.fzp")]
    [Txt "title" "N1";
     schematic_view (El "geometry" [("x", "3"); ("y", "4")] []) []].

(** A wire from (0, 0) to (10, 5) whose second end touches the resistor. *)
Definition wire1_geometry : element :=
  El "geometry" [("x", "0"); ("y", "0"); ("x2", "10"); ("y2", "5")] [].

Definition wire1_end0 : element := connector "connector0" [].

Definition wire1_end1 : element :=
  connector "connector1" [connect "2" "connector0" "schematicView"].

Definition wire1_view : element :=
  El "schematicView" [("layer", "schematicView")]
    [wire1_geometry; El "connectors" [] [wire1_end0; wire1_end1]].

Definition wire1 : element :=
  El "instance" [("moduleIdRef", "WireModuleID"); ("modelIndex", "1")]
    [Txt "title" "Wire1"; El "views" [] [wire1_view]].

(** A wire that is drawn on the breadboard only. *)
Definition wire_hidden : element :=
  El "instance" [("moduleIdRef", "WireModuleID"); ("modelIndex", "3")]
    [El "views" [] [El "breadboardView" [("layer", "breadboardWire")] []]].

(** A wire whose schematic view lists a single connector. *)
Definition wire_one_end : element :=
  El "instance" [("moduleIdRef", "WireModuleID"); ("modelIndex", "9")]
    [schematic_view
       (El "geometry" [("x", "0"); ("y", "0"); ("x2", "10"); ("y2", "5")] [])
       [connector "connector0" []]].

(** The sketch: a wire, two resistors and a part that cannot be found. *)
Definition sketch : element :=
  El "module" [("fritzingVersion", "0.8.5")]
    [El "instances" [] [wire1; inst_r1; inst_r2; inst_ghost]].

Definition files : list (string * element) :=
  [("parts/core/resistor.fzp", resistor_fzp);
   ("parts/svg/core/resistor.svg", resistor_svg);
   ("parts/core/nolabel.fzp", nolabel_fzp);
   ("sketch.fz", sketch)].

Fixpoint lookup_file (p : string) (fs : list (string * element))
  : option element :=
  match fs with
  | [] => None
  | (q, e) :: fs' => if String.eqb p q then Some e else lookup_file p fs'
  end.

(** A world holding exactly [files], with no part library to fall back on. *)
Definition w : world :=
  {| path_exists := fun p => bool_decide (is_Some (lookup_file p files));
     ElementTree := fun p => match lookup_file p files with
                             | Some e => Ok e
                             | None => Raise IOError
                             end;
     lookup_part := fun _ _ => None |}.

Definition session : Fritzing := with_version Fritzing_init (Some "0.8.5").

Definition bad_rect : element := El "rect" [("x", "abc"); ("width", "wide")] [].





Definition triangle : element :=
  El "polygon" [("points", "0,0 10,0 10,10")] [].

(** The part parser of the resistor as [parse] has it before the SVG
    walk, and the shapes of the SVG elements in document order. *)
Definition resistor_parser : ComponentParser :=
  {| next_pin_number := 0; idref := Some "ResistorModuleID";
     path := "parts/core/resistor.fzp";
     body := {| shapes := []; pins := [] |};
     terminals := parse_terminals resistor_fzp |}.



Definition resistor_shapes : list (list Shape) :=
  [[]; [];
   [Rectangle 10 (-26) 4 6];
   [Polygon [{| px := 0; py := 0 |}; {| px := 10; py := 0 |};
             {| px := 10; py := -10 |}; {| px := 0; py := 0 |}]];
   [Rectangle 0 (-4) 5 2];
   [Line {| px := 0; py := 0 |} {| px := 3; py := 0 |};
    Line {| px := 3; py := 0 |} {| px := 3; py := -3 |}];
   [Circle 30 (-2) 1]].

End Sample.

(** ** Vocabulary of the further properties *)


(** The key under which [parse_terminals] files a connector: the
    terminal id of its schematic plug, else the plug's svg id. *)
Definition terminal_key (conn : element) : option string :=
  match find ["views"; "schematicView"; "p"] conn with
  | None => None
  | Some plug =>
      match get plug "terminalId" with
      | Some t => Some t
      | None => get plug "svgId"
      end
  end.

(** The path [parse_svg] derives for the drawing of a part. *)
Definition svg_path_of (fzp_path image : string) : string :=
  join (dirname (dirname fzp_path)) ["svg"; basename (dirname fzp_path); image].

(** The segments joining consecutive points. *)
Fixpoint segments (pts : list Point) : list Shape :=
  match pts with
  | p :: pts' =>
      match pts' with
      | q :: _ => Line p q :: segments pts'
      | [] => []
      end
  | [] => []
  end.

(** An element with the given tag and attributes, as a drawing has it. *)
Definition shape_element (tag : string) (attrib : list (string * string)) : element :=
  Element tag attrib None [].

(** Every component instance of the session refers to a cached component. *)
Definition instances_resolved (st : Fritzing) : Prop :=
  forall index ci, component_instances st !! index = Some ci ->
    is_Some (components st !! library_id ci).

(** The session [st'] keeps what [st] holds: the same version, the
    connection records of [st] as a prefix of its own, and an entry for
    every wire and every component instance that [st] has one for. *)
Definition extends (st st' : Fritzing) : Prop :=
  fritzing_version st' = fritzing_version st /\
  (exists new, connects st' = (connects st ++ new)%list) /\
  (forall k, is_Some (points st !! k) -> is_Some (points st' !! k)) /\
  (forall k, is_Some (component_instances st !! k) ->
             is_Some (component_instances st' !! k)).


(** The kinds of SVG element that are drawn. *)
Definition shape_tags : list string :=
  ["circle"; "rect"; "line"; "polygon"; "polyline"].

(** The part parser as [parse] hands it to [parse_svg]. *)
Definition parser_with_terminals (idref : option string) (path : string)
    (tree : element) : ComponentParser :=
  {| next_pin_number := 0; idref := idref; path := path;
     body := {| shapes := []; pins := [] |};
     terminals := parse_terminals tree |}.

(** ** Further sample documents *)
Module Sample2.

(** A world with a part library: the ghost part of the sketch is found
    there, whatever the version. *)
Definition w : world :=
  {| path_exists := path_exists Sample.w;
     ElementTree := ElementTree Sample.w;
     lookup_part := fun p _ =>
       if String.eqb p "parts/core/ghost.fzp"
       then Some "parts/core/resistor.fzp" else None |}.

(** A part placed on the breadboard only, whose part file is unreadable. *)
Definition inst_breadboard : element :=
  Sample.El "instance"
    [("moduleIdRef", "NoLabelModuleID"); ("modelIndex", "12");
     ("path", "parts/core/nolabel.fzp")]
    [Sample.El "views" []
       [Sample.El "schematicView" [("layer", "breadboardbreadboard")] []]].




(** A wire with three connectors, two of them under the same id. *)
Definition wire_three : element :=
  Sample.El "instance" [("moduleIdRef", "WireModuleID"); ("modelIndex", "20")]
    [Sample.El "views" []
       [Sample.El "schematicView" []
          [Sample.El "geometry" [("x", "1"); ("y", "2"); ("x2", "3"); ("y2", "4")] [];
           Sample.El "connectors" []
             [Sample.connector "connector0" [];
              Sample.connector "connector1" [];
              Sample.connector "connector0" []]]]].

(** A wire without a model index. *)
Definition wire_unindexed : element :=
  Sample.El "instance" [("moduleIdRef", "WireModuleID")]
    [Sample.El "views" [] [Sample.wire1_view]].

(** A wire whose view has a connector but no geometry. *)
Definition wire_shapeless : element :=
  Sample.El "instance" [("moduleIdRef", "WireModuleID"); ("modelIndex", "21")]
    [Sample.El "views" []
       [Sample.El "schematicView" []
          [Sample.El "connectors" [] [Sample.connector "connector0" []]]]].

(** Part descriptions: two connectors filed under the same terminal, one
    with both ids, one without a plug. *)
Definition twin_fzp : element :=
  Sample.El "module" []
    [Sample.Txt "label" "U";
     Sample.El "connectors" []
       [Sample.plug_connector "connector0" "svgId" "pad";
        Sample.El "connector" [("id", "connector1")]
          [Sample.El "views" []
             [Sample.El "schematicView" []
                [Sample.El "p" [("svgId", "pad1"); ("terminalId", "pad1terminal")] []]]];
        Sample.El "connector" [("id", "connector2")] [];
        Sample.plug_connector "connector3" "terminalId" "pad"]].

Definition plain_rect : element :=
  shape_element "rect" [("x", "10"); ("y", "20"); ("width", "4"); ("height", "6")].



(** A world in which every path exists but only the resistor's part
    description is well-formed XML. *)
Definition w_unreadable : world :=
  {| path_exists := fun _ => true;
     ElementTree := fun p => if String.eqb p "parts/core/resistor.fzp"
                             then Ok Sample.resistor_fzp else Raise ParseError;
     lookup_part := fun _ _ => None |}.

(** A drawing whose second rect has a width that is no number. *)
Definition bad_svg : element :=
  Sample.El "svg" [] [plain_rect; Sample.bad_rect].

Definition w_badshape : world :=
  {| path_exists := fun _ => true;
     ElementTree := fun p => if String.eqb p "parts/core/resistor.fzp"
                             then Ok Sample.resistor_fzp else Ok bad_svg;
     lookup_part := fun _ _ => None |}.

(** A sketch whose second instance has no title. *)
Definition broken_sketch : element :=
  Sample.El "module" []
    [Sample.El "instances" []
       [Sample.wire1; Sample.inst_untitled; Sample.inst_r1]].

(** The sample world with the broken sketch added. *)
Definition w_broken : world :=
  {| path_exists := fun p => String.eqb p "broken.fz" || path_exists Sample.w p;
     ElementTree := fun p => if String.eqb p "broken.fz" then Ok broken_sketch
                             else ElementTree Sample.w p;
     lookup_part := fun _ _ => None |}.

Definition zigzag : element :=
  shape_element "polyline" [("points", "0,0 3,0 3,3 6,3")].

End Sample2.

(** * Properties *)

(** ** The result monad and loops *)

Lemma for_each_app {S A : Type} (body : S -> A -> result S) (st : S) (xs ys : list A) :
  for_each body st (xs ++ ys) = rbind (for_each body st xs) (fun st' => for_each body st' ys).
Proof.
  revert st. induction xs as [|x xs IH]; intros st; simpl; [reflexivity|].
  destruct (body st x) as [st'|e]; simpl; [apply IH | reflexivity].
Qed.

(** A loop is aborted by the first iteration that raises. *)
Lemma for_each_raise {S A : Type} (body : S -> A -> result S) (st st' : S)
    (pre post : list A) (x : A) (e : exn) :
  for_each body st pre = Ok st' -> body st' x = Raise e ->
  for_each body st (pre ++ x :: post) = Raise e.
Proof.
  intros Hpre Hx. rewrite for_each_app, Hpre. simpl. rewrite Hx. reflexivity.
Qed.

(** ** Binary64 conversion of integers *)













(** ** Decimal text of integers

    [float(str(z))] reads the digits of [z] back exactly as [float(z)]
    converts the integer. *)







(** ** Coordinate conversions *)

Lemma make_y_make_x v : make_y v = rbind (make_x v) (fun n => Ok (- n)).
Proof. unfold make_y, make_x. destruct (py_float v); reflexivity. Qed.






(** Decimal text is first rounded to a binary64 value: the text below
    denotes a number under one half and still becomes 1. *)
Example make_x_double_rounding : make_x (PyStr "0.49999999999999999") = Ok 1.
Proof. vm_compute. reflexivity. Qed.

(** Halfway cases go away from zero, as Python 2 rounds. *)
Example make_x_half : make_x (PyStr "2.5") = Ok 3 /\ make_y (PyStr "2.5") = Ok (-3)
                      /\ make_x (PyStr "-0.5") = Ok (-1).
Proof. repeat split; vm_compute; reflexivity. Qed.

(** ** Defaults and malformed geometry *)

Lemma float_of_string_raise s ex : float_of_string s = Raise ex -> ex = ValueError.
Proof.
  unfold float_of_string.
  destruct (parse_sign (strip s)) as [neg body].
  destruct (_ || _); [discriminate|].
  destruct (String.eqb _ "nan"); [discriminate|].
  destruct (span_digits body) as [ip r1].
  destruct (match r1 with EmptyString => _ | String _ _ => _ end) as [fp r2].
  destruct (_ && _); [congruence|].
  destruct (digits_value _ 0); [destruct (parse_exponent r2)|]; congruence.
Qed.

Lemma split_ws_nonempty s t : In t (split_ws s) -> t <> EmptyString.
Proof.
  revert t. induction s as [|c r IH]; intros t; simpl; [tauto|].
  destruct (isspace c); [apply IH|].
  destruct r as [|c' r']; [intros [<-|[]]; discriminate|].
  destruct (isspace c').
  - intros [<-|H]; [discriminate | apply IH, H].
  - destruct (split_ws (String c' r')) as [|t0 ts] eqn:E.
    + intros [<-|[]]; discriminate.
    + intros [<-|H]; [discriminate | apply IH; right; exact H].
Qed.

Lemma polygon_step_point pts t :
  t <> EmptyString ->
  polygon_step pts t = rbind (point_of_token t) (fun p => Ok (pts ++ [p])%list).
Proof.
  intros Ht. unfold polygon_step, point_of_token.
  apply String.eqb_neq in Ht. rewrite Ht. simpl.
  destruct (unpack2 _) as [xy|]; simpl; [|reflexivity].
  destruct (make_x _); simpl; [|reflexivity].
  destruct (make_y _); reflexivity.
Qed.

(** The polygon loop collects the points its tokens denote, in order. *)
Lemma polygon_loop toks : forall acc,
  (forall t, In t toks -> t <> EmptyString) ->
  for_each polygon_step acc toks
  = rbind (map_result point_of_token toks) (fun ps => Ok (acc ++ ps)%list).
Proof.
  induction toks as [|t toks IH]; intros acc Hne; simpl.
  - rewrite app_nil_r. reflexivity.
  - rewrite polygon_step_point by (apply Hne; left; reflexivity).
    destruct (point_of_token t) as [p|e]; simpl; [|reflexivity].
    rewrite IH by (intros t' Ht'; apply Hne; right; exact Ht').
    destruct (map_result point_of_token toks) as [ps|e]; simpl; [|reflexivity].
    rewrite <- app_assoc. reflexivity.
Qed.

Lemma map_result_raise {A B : Type} (f : A -> result B) pre t post pts ex :
  map_result f pre = Ok pts -> f t = Raise ex ->
  map_result f (pre ++ t :: post) = Raise ex.
Proof.
  revert pts. induction pre as [|a pre IH]; intros pts; simpl.
  - intros _ ->. reflexivity.
  - destruct (f a); simpl; [|discriminate].
    destruct (map_result f pre) as [bs|] eqn:E; simpl; [|discriminate].
    intros _ Ht. rewrite (IH bs eq_refl Ht). reflexivity.
Qed.

Lemma polyline_step_point acc t :
  t <> EmptyString ->
  polyline_step acc t
  = rbind (point_of_token t)
      (fun pt => match snd acc with
                 | Some last_point => Ok ((fst acc ++ [Line last_point pt])%list, Some pt)
                 | None => Ok (fst acc, Some pt)
                 end).
Proof.
  intros Ht. unfold polyline_step, point_of_token.
  apply String.eqb_neq in Ht. rewrite Ht. simpl.
  destruct (unpack2 _) as [xy|]; simpl; [|reflexivity].
  destruct (make_x _); simpl; [|reflexivity].
  destruct (make_y _); reflexivity.
Qed.


Lemma point_tokens_nonempty poly t : In t (point_tokens poly) -> t <> EmptyString.
Proof. apply split_ws_nonempty. Qed.

Lemma parse_polygon_points poly :
  parse_polygon poly
  = rbind (parsed_points poly)
      (fun pts => Ok [Polygon (match pts with
                               | p0 :: _ => pts ++ [p0]
                               | [] => []
                               end)%list]).
Proof.
  unfold parse_polygon, parsed_points.
  rewrite polygon_loop by apply point_tokens_nonempty.
  destruct (map_result point_of_token (point_tokens poly)) as [pts|e]; simpl; [|reflexivity].
  destruct pts as [|[x y] pts]; reflexivity.
Qed.




(** ** Polygons *)

(** C7: when the points attribute of a polygon parses to the points
    [pts], the stored polygon holds [pts] followed by one repetition of
    its first point; when it parses to no point, nothing is appended. *)
Theorem polygon_closure poly pts :
  parsed_points poly = Ok pts ->
  (forall p0 rest, pts = p0 :: rest ->
     parse_polygon poly = Ok [Polygon (pts ++ [p0])]) /\
  (pts = [] -> parse_polygon poly = Ok [Polygon []]).
Proof.
  intros Hp. rewrite parse_polygon_points, Hp. simpl.
  split; [intros p0 rest -> | intros ->]; reflexivity.
Qed.

Lemma polygon_closure_witness :
  parsed_points Sample.triangle
  = Ok [{| px := 0; py := 0 |}; {| px := 10; py := 0 |}; {| px := 10; py := -10 |}] /\
  parse_polygon Sample.triangle
  = Ok [Polygon [{| px := 0; py := 0 |}; {| px := 10; py := 0 |};
                 {| px := 10; py := -10 |}; {| px := 0; py := 0 |}]].
Proof.
  assert (Hp : parsed_points Sample.triangle
    = Ok [{| px := 0; py := 0 |}; {| px := 10; py := 0 |}; {| px := 10; py := -10 |}])
    by (vm_compute; reflexivity).
  split; [exact Hp|].
  exact (proj1 (polygon_closure Sample.triangle _ Hp) _ _ eq_refl).
Defined.

(** ** Rotation decoding *)








(** ** Pins *)

Lemma is_terminal_terminals cp cp' e :
  terminals cp' = terminals cp -> is_terminal cp' e = is_terminal cp e.
Proof. intros H. unfold is_terminal. rewrite H. reflexivity. Qed.

Lemma get_pin_spec cp shape e :
  get_pin cp shape e
  = match (if is_terminal cp e then pin_point shape else None) with
    | Some pt => (Some (mk_pin (next_pin_number cp) pt), snd (get_next_pin_number cp))
    | None => (None, cp)
    end.
Proof.
  unfold get_pin. destruct (is_terminal cp e); simpl; [|reflexivity].
  destruct shape; reflexivity.
Qed.

Lemma number_pins_app n pts pts' :
  number_pins n (pts ++ pts')
  = (number_pins n pts ++ number_pins (n + Z.of_nat (length pts)) pts')%list.
Proof.
  revert n. induction pts as [|pt pts IH]; intros n; simpl.
  - f_equal. lia.
  - rewrite IH. do 3 f_equal. lia.
Qed.

Lemma number_pins_length n pts : length (number_pins n pts) = length pts.
Proof. revert n. induction pts; intros n; simpl; auto. Qed.

Lemma number_pins_numbers n pts :
  List.map pin_number (number_pins n pts)
  = List.map (fun i => py_str (n + Z.of_nat i)) (seq 0 (length pts)).
Proof.
  revert n. induction pts as [|pt pts IH]; intros n; simpl; [reflexivity|].
  rewrite IH, <- seq_shift, List.map_map. f_equal.
  - f_equal. lia.
  - apply List.map_ext. intros i. f_equal. lia.
Qed.

(** What one iteration of the inner loop of [parse_svg] does. *)
Lemma shape_step_spec e cp sh :
  let cp' := shape_step e cp sh in
  shapes (body cp') = (shapes (body cp) ++ [sh])%list /\
  pins (body cp')
  = (pins (body cp) ++ number_pins (next_pin_number cp) (owned_pin_points cp e [sh]))%list /\
  next_pin_number cp'
  = next_pin_number cp + Z.of_nat (length (owned_pin_points cp e [sh])) /\
  terminals cp' = terminals cp.
Proof.
  unfold shape_step. rewrite get_pin_spec.
  rewrite (is_terminal_terminals cp (with_body cp _) e) by reflexivity.
  unfold owned_pin_points.
  destruct (is_terminal cp e); simpl; [destruct (pin_point sh) as [pt|]|]; simpl;
    rewrite ?app_nil_r; repeat split; first [reflexivity | lia].
Qed.

Lemma owned_pin_points_cons cp e sh shs :
  owned_pin_points cp e (sh :: shs)
  = (owned_pin_points cp e [sh] ++ owned_pin_points cp e shs)%list.
Proof.
  unfold owned_pin_points. destruct (is_terminal cp e); [|reflexivity].
  simpl. destruct (pin_point sh); reflexivity.
Qed.

Lemma owned_pin_points_terminals cp cp' e shs :
  terminals cp' = terminals cp ->
  owned_pin_points cp' e shs = owned_pin_points cp e shs.
Proof.
  intros H. unfold owned_pin_points. rewrite (is_terminal_terminals _ _ _ H). reflexivity.
Qed.

(** What the inner loop of [parse_svg] does with the shapes of one element. *)
Lemma add_shapes_spec e shs : forall cp,
  let cp' := add_shapes e cp shs in
  shapes (body cp') = (shapes (body cp) ++ shs)%list /\
  pins (body cp')
  = (pins (body cp) ++ number_pins (next_pin_number cp) (owned_pin_points cp e shs))%list /\
  next_pin_number cp'
  = next_pin_number cp + Z.of_nat (length (owned_pin_points cp e shs)) /\
  terminals cp' = terminals cp.
Proof.
  induction shs as [|sh shs IH]; intros cp.
  - unfold owned_pin_points. destruct (is_terminal cp e); simpl;
      rewrite !app_nil_r; repeat split; first [reflexivity | lia].
  - cbn zeta. unfold add_shapes. cbn [fold_left]. fold (add_shapes e (shape_step e cp sh) shs).
    destruct (shape_step_spec e cp sh) as (Hs1 & Hp1 & Hn1 & Ht1).
    destruct (IH (shape_step e cp sh)) as (Hs & Hp & Hn & Ht).
    cbn zeta in *.
    rewrite (owned_pin_points_terminals cp _ e shs Ht1) in Hp, Hn.
    rewrite (owned_pin_points_cons cp e sh shs).
    rewrite Hs, Hp, Hn, Ht, Hs1, Hp1, Hn1, Ht1.
    rewrite number_pins_app, length_app, <- !app_assoc.
    repeat split. lia.
Qed.

Lemma all_pin_points_terminals cp cp' es : forall shss,
  terminals cp' = terminals cp ->
  all_pin_points cp' es shss = all_pin_points cp es shss.
Proof.
  induction es as [|e es IH]; intros [|shs shss] H; simpl; try reflexivity.
  rewrite (owned_pin_points_terminals cp cp' e shs H), (IH shss H). reflexivity.
Qed.

(** The outer loop of [parse_svg]: it fails exactly when the shapes of
    some element fail to parse, and otherwise appends all shapes in
    document order and the pins of the terminal shapes, numbered on from
    the parser's next pin number. *)
Lemma parse_elements_spec es : forall cp,
  match map_result element_shapes es with
  | Ok shss =>
      exists cp', parse_elements cp es = Ok cp' /\
        shapes (body cp') = (shapes (body cp) ++ concat shss)%list /\
        pins (body cp')
        = (pins (body cp)
           ++ number_pins (next_pin_number cp) (all_pin_points cp es shss))%list /\
        next_pin_number cp'
        = next_pin_number cp + Z.of_nat (length (all_pin_points cp es shss)) /\
        terminals cp' = terminals cp
  | Raise ex => parse_elements cp es = Raise ex
  end.
Proof.
  unfold parse_elements.
  induction es as [|e es IH]; intros cp; simpl.
  - exists cp. rewrite !app_nil_r. repeat split. lia.
  - change (svg_step cp e)
      with (rbind (element_shapes e) (fun shs => Ok (add_shapes e cp shs))).
    destruct (element_shapes e) as [shs|ex]; simpl; [|reflexivity].
    specialize (IH (add_shapes e cp shs)).
    destruct (add_shapes_spec e shs cp) as (Hs1 & Hp1 & Hn1 & Ht1). cbn zeta in *.
    destruct (map_result element_shapes es) as [shss|ex]; simpl; [|exact IH].
    destruct IH as (cp' & Hrun & Hs & Hp & Hn & Ht).
    exists cp'. split; [exact Hrun|].
    rewrite (all_pin_points_terminals cp _ es shss Ht1) in Hp, Hn.
    rewrite Hs, Hp, Hn, Ht, Hs1, Hp1, Hn1, Ht1.
    rewrite number_pins_app, length_app, <- !app_assoc.
    repeat split. lia.
Qed.

Lemma parse_elements_numbers cp es cp' :
  next_pin_number cp = 0 -> pins (body cp) = [] ->
  parse_elements cp es = Ok cp' ->
  List.map pin_number (pins (body cp'))
  = List.map (fun i => py_str (Z.of_nat i)) (seq 0 (length (pins (body cp')))).
Proof.
  intros Hn0 Hp0 Hrun. pose proof (parse_elements_spec es cp) as H.
  destruct (map_result element_shapes es) as [shss|ex]; [|congruence].
  destruct H as (cp'' & Hrun' & _ & Hp & _). rewrite Hrun in Hrun'.
  injection Hrun' as <-. rewrite Hp, Hp0, Hn0. simpl.
  rewrite number_pins_numbers, number_pins_length. reflexivity.
Qed.




(** The resistor of the sample library: the polygon drawn on terminal
    [pin0] yields no pin, the rectangle and the circle yield pins 0 and 1. *)
Example resistor_pins :
  exists c b, ComponentParser_parse Sample.w
                (ComponentParser_init (Some "ResistorModuleID") "parts/core/resistor.fzp")
              = Ok c /\
    symbols c = [{| bodies := [b] |}] /\
    pins b = [mk_pin 0 {| px := 2; py := -3 |}; mk_pin 1 {| px := 30; py := -2 |}] /\
    List.map pin_number (pins b) = ["0"; "1"].
Proof. do 2 eexists. repeat split; vm_compute; reflexivity. Qed.

(** ** The session: connection records *)

Lemma add_connects_fields st index view :
  points (add_connects st index view) = points st /\
  component_instances (add_connects st index view) = component_instances st /\
  components (add_connects st index view) = components st /\
  fritzing_version (add_connects st index view) = fritzing_version st.
Proof.
  unfold add_connects.
  generalize (findall ["connectors"; "connector"] view) as cs.
  intros cs. revert st. induction cs as [|c cs IH]; intros st; simpl; [auto|].
  destruct (connector_connects c) as [|t l]; [apply IH|].
  match goal with |- context [fold_left _ cs ?s] =>
    destruct (IH s) as (H1 & H2 & H3 & H4) end.
  rewrite H1, H2, H3, H4. auto.
Qed.

(** ** Wires *)

Lemma enumerate_two {A : Type} (a b : A) : enumerate [a; b] = [(0%nat, a); (1%nat, b)].
Proof. reflexivity. Qed.

(** C3 (as amended): an instance is parsed as a wire exactly when its
    [moduleIdRef] is the wire sentinel; a wire without a schematic view
    leaves the session untouched; a wire whose schematic view has exactly
    two connectors with distinct ids, a model index and a geometry block
    with readable coordinates gets exactly two net points, keyed by its
    model index and the connector ids, the first at [x]/[y] and the
    second at [x2]/[y2]. *)
Theorem wire_net_points w st inst :
  (get inst "moduleIdRef" = Some wire_sentinel ->
     parse_instance w st inst = parse_wire st inst) /\
  (get inst "moduleIdRef" <> Some wire_sentinel ->
     parse_instance w st inst = parse_component_instance w st inst) /\
  (get inst "moduleIdRef" = Some wire_sentinel ->
   find ["views"; "schematicView"] inst = None ->
     parse_instance w st inst = Ok st) /\
  (forall view geom c0 c1 index cid0 cid1 x y x2 y2,
     get inst "moduleIdRef" = Some wire_sentinel ->
     find ["views"; "schematicView"] inst = Some view ->
     findall ["connectors"; "connector"] view = [c0; c1] ->
     get inst "modelIndex" = Some index ->
     get c0 "connectorId" = Some cid0 ->
     get c1 "connectorId" = Some cid1 ->
     cid0 <> cid1 ->
     find ["geometry"] view = Some geom ->
     get_x geom "x" = Ok x -> get_y geom "y" = Ok y ->
     get_x geom "x2" = Ok x2 -> get_y geom "y2" = Ok y2 ->
     exists st' (d : gmap string NetPoint),
       parse_instance w st inst = Ok st' /\
       points st' = <[Some index := d]> (points st) /\
       d = <[cid1 := {| point_id := (index ++ ".") ++ cid1; np_x := x2; np_y := y2 |}]>
             (<[cid0 := {| point_id := (index ++ ".") ++ cid0; np_x := x; np_y := y |}]> ∅) /\
       size d = 2%nat).
Proof.
  assert (Hwire : get inst "moduleIdRef" = Some wire_sentinel ->
                  parse_instance w st inst = parse_wire st inst).
  { intros H. unfold parse_instance. rewrite bool_decide_eq_true_2 by exact H. reflexivity. }
  split; [exact Hwire|]. split; [|split].
  - intros H. unfold parse_instance. rewrite bool_decide_eq_false_2 by exact H. reflexivity.
  - intros H Hv. rewrite (Hwire H). unfold parse_wire. rewrite Hv. reflexivity.
  - intros view geom c0 c1 index cid0 cid1 x y x2 y2
           H Hv Hcs Hidx Hc0 Hc1 Hne Hg Hx Hy Hx2 Hy2.
    rewrite (Hwire H). unfold parse_wire. rewrite Hv, Hcs, Hidx, Hg, enumerate_two.
    cbn [for_each]. unfold wire_step at 1.
    cbn [fst snd str_add rbind deref Nat.eqb]. rewrite Hc0.
    cbn [str_add rbind]. rewrite Hx, Hy. cbn [rbind with_points points].
    rewrite lookup_insert_eq, insert_insert_eq.
    unfold wire_step.
    cbn [fst snd str_add rbind deref Nat.eqb]. rewrite Hc1.
    cbn [str_add rbind]. rewrite Hx2, Hy2. cbn [rbind with_points points].
    rewrite lookup_insert_eq, insert_insert_eq.
    eexists. eexists. split; [reflexivity|].
    destruct (add_connects_fields
                (with_points
                   (with_points (with_points st (<[Some index:=∅]> (points st)))
                      (<[Some index := <[cid0 := {| point_id := (index ++ ".") ++ cid0;
                                                    np_x := x; np_y := y |}]> ∅]>
                         (points st)))
                   (<[Some index :=
                        <[cid1 := {| point_id := (index ++ ".") ++ cid1;
                                     np_x := x2; np_y := y2 |}]>
                          (<[cid0 := {| point_id := (index ++ ".") ++ cid0;
                                        np_x := x; np_y := y |}]> ∅)]>
                      (points st)))
                (Some index) view) as (Hp & _).
    split; [exact Hp|]. split; [reflexivity|].
    rewrite map_size_insert_None.
    + rewrite map_size_insert_None by apply lookup_empty. rewrite map_size_empty. reflexivity.
    + rewrite lookup_insert_ne by exact Hne. apply lookup_empty.
Qed.

Lemma wire_net_points_witness :
  parse_instance Sample.w Sample.session Sample.wire1
  = parse_wire Sample.session Sample.wire1 /\
  parse_instance Sample.w Sample.session Sample.inst_r1
  = parse_component_instance Sample.w Sample.session Sample.inst_r1 /\
  parse_instance Sample.w Sample.session Sample.wire_hidden = Ok Sample.session /\
  exists st' (d : gmap string NetPoint),
    parse_instance Sample.w Sample.session Sample.wire1 = Ok st' /\
    points st' = <[Some "1" := d]> (points Sample.session) /\
    d = <["connector1" := {| point_id := ("1" ++ ".") ++ "connector1";
                             np_x := 10; np_y := -5 |}]>
          (<["connector0" := {| point_id := ("1" ++ ".") ++ "connector0";
                                np_x := 0; np_y := 0 |}]> ∅) /\
    size d = 2%nat.
Proof.
  split; [|split; [|split]].
  - apply (proj1 (wire_net_points Sample.w Sample.session Sample.wire1)). reflexivity.
  - apply (proj1 (proj2 (wire_net_points Sample.w Sample.session Sample.inst_r1))).
    intros H. discriminate H.
  - apply (proj1 (proj2 (proj2 (wire_net_points Sample.w Sample.session Sample.wire_hidden))));
      reflexivity.
  - apply (proj2 (proj2 (proj2 (wire_net_points Sample.w Sample.session Sample.wire1)))
             Sample.wire1_view Sample.wire1_geometry Sample.wire1_end0 Sample.wire1_end1);
      try (vm_compute; reflexivity).
    intros H. discriminate H.
Defined.

(** C3 as stated fails: the loop makes one net point per connector of the
    view, so a wire whose view lists one connector gets one net point. *)
Lemma wire_one_end_single_point :
  get Sample.wire_one_end "moduleIdRef" = Some wire_sentinel /\
  is_Some (find ["views"; "schematicView"] Sample.wire_one_end) /\
  exists st' (d : gmap string NetPoint),
    parse_instance Sample.w Sample.session Sample.wire_one_end = Ok st' /\
    points st' !! Some "9" = Some d /\
    size d = 1%nat.
Proof.
  split; [reflexivity|]. split; [eexists; reflexivity|].
  do 2 eexists. split; [vm_compute; reflexivity|].
  split; vm_compute; reflexivity.
Qed.

(** ** The component cache *)

Lemma ensure_component_cached w st inst c :
  components st !! get inst "moduleIdRef" = Some c ->
  ensure_component w st inst = Ok (Some c, st).
Proof. intros H. unfold ensure_component. rewrite H. reflexivity. Qed.

Lemma ensure_component_unresolvable w st inst :
  components st !! get inst "moduleIdRef" = None ->
  unresolvable w (fritzing_version st) (get inst "path") ->
  ensure_component w st inst = Ok (None, st).
Proof.
  intros Hc Hu. unfold ensure_component. rewrite Hc.
  destruct Hu as [Hf | (p & v & Hp & Hv & Hex & Hl)].
  - rewrite Hf. reflexivity.
  - rewrite Hp, Hv. simpl.
    destruct (negb (String.eqb p "")); simpl; [|reflexivity].
    rewrite Hex. simpl.
    destruct Hl as [Hl | (q & Hq & Hqex)].
    + rewrite Hl. reflexivity.
    + rewrite Hq. simpl. rewrite Hqex. simpl. rewrite orb_true_r. reflexivity.
Qed.

(** The three ways [ensure_component] returns: a cache hit, a failed
    resolution that leaves the session as it was, or a successful parse
    whose component is entered under the instance's [moduleIdRef]. *)
Lemma ensure_component_cases w st inst r st' :
  ensure_component w st inst = Ok (r, st') ->
  (exists c, r = Some c /\ st' = st /\
             components st !! get inst "moduleIdRef" = Some c) \/
  (r = None /\ st' = st /\ components st !! get inst "moduleIdRef" = None) \/
  (exists c p, r = Some c /\ components st !! get inst "moduleIdRef" = None /\
     ComponentParser_parse w (ComponentParser_init (get inst "moduleIdRef") p) = Ok c /\
     st' = with_components st (<[get inst "moduleIdRef" := c]> (components st))).
Proof.
  unfold ensure_component.
  destruct (components st !! get inst "moduleIdRef") as [c|] eqn:Hc.
  { intros [= <- <-]. left. eauto. }
  destruct (negb (truthy (get inst "path"))) eqn:Ht; [intros [= <- <-]; right; left; auto|].
  destruct (path_exists w (default EmptyString (get inst "path"))) eqn:Hex; simpl.
  - rewrite Ht, Hex. simpl.
    destruct (ComponentParser_parse w _) as [c|] eqn:Hparse; simpl; [|discriminate].
    intros [= <- <-]. right. right. eauto 10.
  - destruct (fritzing_version st) as [v|]; simpl; [|discriminate].
    destruct (negb (truthy (lookup_part w (default EmptyString (get inst "path")) v))
              || negb (path_exists w
                         (default EmptyString
                            (lookup_part w (default EmptyString (get inst "path")) v))));
      [intros [= <- <-]; right; left; auto|].
    destruct (ComponentParser_parse w _) as [c|] eqn:Hparse; simpl; [|discriminate].
    intros [= <- <-]. right. right. eauto 10.
Qed.

(** ** Unresolvable parts *)

(** C2 (as amended): a non-wire instance whose [moduleIdRef] is not in
    the component cache and whose path is absent or empty, or names a
    nonexistent file that the library lookup cannot resolve either,
    records no component instance: the session is left as it was and the
    instance loop goes on with the instances that follow. *)
Theorem skip_unresolvable w st inst :
  get inst "moduleIdRef" <> Some wire_sentinel ->
  components st !! get inst "moduleIdRef" = None ->
  unresolvable w (fritzing_version st) (get inst "path") ->
  parse_instance w st inst = Ok st /\
  forall rest, parse_instances w st (inst :: rest) = parse_instances w st rest.
Proof.
  intros Hw Hc Hu.
  assert (H : parse_instance w st inst = Ok st).
  { unfold parse_instance. rewrite bool_decide_eq_false_2 by exact Hw.
    unfold parse_component_instance.
    destruct (find ["views"; "schematicView"] inst) as [view|]; [|reflexivity].
    destruct (bool_decide _); [reflexivity|].
    rewrite (ensure_component_unresolvable w st inst Hc Hu). reflexivity. }
  split; [exact H|].
  intros rest. unfold parse_instances. simpl. rewrite H. reflexivity.
Qed.

Lemma skip_unresolvable_witness :
  parse_instance Sample.w Sample.session Sample.inst_ghost = Ok Sample.session /\
  parse_instances Sample.w Sample.session [Sample.inst_ghost; Sample.inst_r1]
  = parse_instances Sample.w Sample.session [Sample.inst_r1].
Proof.
  assert (H : parse_instance Sample.w Sample.session Sample.inst_ghost = Ok Sample.session /\
              forall rest,
                parse_instances Sample.w Sample.session (Sample.inst_ghost :: rest)
                = parse_instances Sample.w Sample.session rest).
  { apply skip_unresolvable.
    - intros H. discriminate H.
    - reflexivity.
    - right. exists "parts/core/ghost.fzp", "0.8.5".
      repeat split. left. reflexivity. }
  destruct H as [H1 H2]. split; [exact H1 | apply H2].
Defined.

(** C2 as stated fails: once the resistor part is cached, a second
    resistor that has no [path] attribute still gets its component
    instance. *)
Lemma cached_part_ignores_path :
  get Sample.inst_r2 "moduleIdRef" <> Some wire_sentinel /\
  get Sample.inst_r2 "path" = None /\
  exists st,
    parse_instances Sample.w Sample.session [Sample.inst_r1; Sample.inst_r2] = Ok st /\
    component_instances st !! Some "5"
    = Some {| instance_id := Some "R2"; library_id := Some "ResistorModuleID";
              symbol_index := 0;
              symbol_attributes :=
                [{| sa_x := 40; sa_y := -7; sa_rotation := (0 # 1)%Q |}] |}.
Proof.
  split; [intros H; discriminate H|]. split; [reflexivity|].
  eexists. split; vm_compute; reflexivity.
Qed.

(** A part file that exists but has no label aborts the whole parse. *)
Example unreadable_part_aborts :
  parse_instances Sample.w Sample.session [Sample.inst_nolabel; Sample.inst_r1]
  = Raise AttributeError.
Proof. vm_compute. reflexivity. Qed.

(** ** Titles *)

(** C9 (as amended): the title element is required.  For a non-wire
    instance that has a schematic view, is not breadboard-only and whose
    component resolves, the parse aborts with [AttributeError] when the
    instance has no title element; with a title element, a geometry
    block with readable [x] and [y] and a decodable transform it
    succeeds and records the component instance under the model index. *)
Theorem title_required w st inst view c st1 :
  get inst "moduleIdRef" <> Some wire_sentinel ->
  find ["views"; "schematicView"] inst = Some view ->
  get view "layer" <> Some breadboard ->
  ensure_component w st inst = Ok (Some c, st1) ->
  (find ["title"] inst = None -> parse_instance w st inst = Raise AttributeError) /\
  (forall title_el geom rotation x y,
     find ["title"] inst = Some title_el ->
     find ["geometry"] view = Some geom ->
     decode_rotation (find ["transform"] geom) = Ok rotation ->
     get_x geom "x" = Ok x -> get_y geom "y" = Ok y ->
     exists st', parse_instance w st inst = Ok st' /\
       component_instances st' !! get inst "modelIndex"
       = Some {| instance_id := etext title_el;
                 library_id := get inst "moduleIdRef";
                 symbol_index := 0;
                 symbol_attributes :=
                   [{| sa_x := x; sa_y := y; sa_rotation := rotation |}] |}).
Proof.
  intros Hw Hv Hl He.
  assert (Hrun : parse_instance w st inst
                 = parse_component_instance w st inst).
  { unfold parse_instance. rewrite bool_decide_eq_false_2 by exact Hw. reflexivity. }
  rewrite Hrun. unfold parse_component_instance.
  rewrite Hv, (bool_decide_eq_false_2 _ Hl), He. cbn [rbind].
  split.
  - intros Ht. rewrite Ht. reflexivity.
  - intros title_el geom rotation x y Ht Hg Hr Hx Hy.
    rewrite Ht, Hg. cbn [deref rbind]. rewrite Hr. cbn [rbind].
    rewrite Hx, Hy. cbn [rbind].
    eexists. split; [reflexivity|].
    match goal with |- context [add_connects ?s ?i ?v] =>
      destruct (add_connects_fields s i v) as (_ & Hci & _) end.
    rewrite Hci. cbn [with_component_instances component_instances].
    apply lookup_insert_eq.
Qed.

Lemma title_required_witness :
  parse_instance Sample.w Sample.session Sample.inst_untitled = Raise AttributeError /\
  exists st', parse_instance Sample.w Sample.session Sample.inst_r2_placed = Ok st' /\
    component_instances st' !! get Sample.inst_r2_placed "modelIndex"
    = Some {| instance_id := etext (Sample.Txt "title" "R2");
              library_id := get Sample.inst_r2_placed "moduleIdRef";
              symbol_index := 0;
              symbol_attributes :=
                [{| sa_x := 40; sa_y := -7; sa_rotation := (0 # 1)%Q |}] |}.
Proof.
  split.
  - eapply (proj1 (title_required Sample.w Sample.session Sample.inst_untitled
                     Sample.plain_view _ _ _ eq_refl _ eq_refl)).
    reflexivity.
  - eapply (proj2 (title_required Sample.w Sample.session Sample.inst_r2_placed
                     Sample.r2_view _ _ _ eq_refl _ eq_refl)
              (Sample.Txt "title" "R2") Sample.r2_geometry);
      vm_compute; reflexivity.
  Unshelve.
  all: try (intros H; discriminate H).
Defined.

(** C9 as stated fails: a resistor whose part resolves but which has no
    title element aborts the parse. *)
Lemma untitled_instance_aborts :
  get Sample.inst_untitled "moduleIdRef" <> Some wire_sentinel /\
  find ["views"; "schematicView"] Sample.inst_untitled = Some Sample.plain_view /\
  get Sample.plain_view "layer" <> Some breadboard /\
  (exists c st1,
     ensure_component Sample.w Sample.session Sample.inst_untitled = Ok (Some c, st1)) /\
  find ["title"] Sample.inst_untitled = None /\
  parse_instance Sample.w Sample.session Sample.inst_untitled = Raise AttributeError /\
  parse_instances Sample.w Sample.session [Sample.inst_untitled; Sample.inst_r1]
  = Raise AttributeError.
Proof.
  split; [intros H; discriminate H|]. split; [reflexivity|].
  split; [intros H; discriminate H|].
  split; [do 2 eexists; vm_compute; reflexivity|].
  repeat split; vm_compute; reflexivity.
Qed.

(** ** The cache over a session *)

Lemma wire_step_components index geom s ic s1 :
  wire_step index geom s ic = Ok s1 -> components s1 = components s.
Proof.
  unfold wire_step.
  destruct (str_add index (Some ".")) as [pid0|]; simpl; [|discriminate].
  destruct (get (snd ic) "connectorId") as [cid|]; simpl; [|discriminate].
  destruct geom as [g|]; simpl; [|discriminate].
  destruct (get_x g _); simpl; [|discriminate].
  destruct (get_y g _); simpl; [|discriminate].
  destruct (points s !! index); [|discriminate].
  intros [= <-]. reflexivity.
Qed.

Lemma parse_wire_components st inst st' :
  parse_wire st inst = Ok st' -> components st' = components st.
Proof.
  unfold parse_wire.
  destruct (find ["views"; "schematicView"] inst) as [view|]; [|intros [= <-]; reflexivity].
  set (index := get inst "modelIndex"). set (geom := find ["geometry"] view).
  assert (Hloop : forall l s s', for_each (wire_step index geom) s l = Ok s' ->
                                 components s' = components s).
  { induction l as [|ic l IH]; intros s s'; simpl; [intros [= <-]; reflexivity|].
    destruct (wire_step index geom s ic) as [s1|] eqn:Hstep; simpl; [|discriminate].
    intros Hrest. rewrite (IH _ _ Hrest). exact (wire_step_components _ _ _ _ _ Hstep). }
  destruct (for_each _ _ _) as [s2|] eqn:Hfor; simpl; [|discriminate].
  intros [= <-].
  destruct (add_connects_fields s2 index view) as (_ & _ & Hc & _).
  rewrite Hc, (Hloop _ _ _ Hfor). reflexivity.
Qed.

(** What one instance does to the cache: nothing, or one new entry for a
    key that was absent, holding a successfully parsed component. *)
Lemma parse_instance_components w st inst st' :
  parse_instance w st inst = Ok st' ->
  components st' = components st \/
  exists c p,
    components st !! get inst "moduleIdRef" = None /\
    ComponentParser_parse w (ComponentParser_init (get inst "moduleIdRef") p) = Ok c /\
    components st' = <[get inst "moduleIdRef" := c]> (components st).
Proof.
  unfold parse_instance. destruct (bool_decide _).
  { intros H. left. exact (parse_wire_components _ _ _ H). }
  unfold parse_component_instance.
  destruct (find ["views"; "schematicView"] inst) as [view|]; [|intros [= <-]; auto].
  destruct (bool_decide _); [intros [= <-]; auto|].
  destruct (ensure_component w st inst) as [[r st1]|] eqn:He; simpl; [|discriminate].
  assert (Hst1 : components st1 = components st \/
                 exists c p,
                   components st !! get inst "moduleIdRef" = None /\
                   ComponentParser_parse w
                     (ComponentParser_init (get inst "moduleIdRef") p) = Ok c /\
                   components st1 = <[get inst "moduleIdRef" := c]> (components st)).
  { destruct (ensure_component_cases _ _ _ _ _ He)
      as [(c & _ & -> & _) | [(_ & -> & _) | (c & p & _ & Hn & Hp & ->)]]; eauto 10. }
  destruct r as [cpt|]; [|intros [= <-]; exact Hst1].
  destruct (deref (find ["title"] inst)); simpl; [|discriminate].
  destruct (deref (find ["geometry"] view)) as [geom|]; simpl; [|discriminate].
  destruct (decode_rotation _); simpl; [|discriminate].
  destruct (get_x geom "x"); simpl; [|discriminate].
  destruct (get_y geom "y"); simpl; [|discriminate].
  intros [= <-].
  match goal with |- context [add_connects ?s ?i ?v] =>
    destruct (add_connects_fields s i v) as (_ & _ & Hc & _) end.
  rewrite Hc. exact Hst1.
Qed.

Lemma parse_instances_cache w insts : forall st st',
  cache_parsed w st ->
  parse_instances w st insts = Ok st' ->
  cache_parsed w st' /\
  (forall k c, components st !! k = Some c -> components st' !! k = Some c).
Proof.
  unfold parse_instances.
  induction insts as [|inst insts IH]; intros st st' Hinv; simpl.
  - intros [= <-]. auto.
  - destruct (parse_instance w st inst) as [st1|] eqn:H1; simpl; [|discriminate].
    intros Hrest.
    assert (Hstep : cache_parsed w st1 /\
              (forall k c, components st !! k = Some c -> components st1 !! k = Some c)).
    { destruct (parse_instance_components _ _ _ _ H1) as [Heq | (c & p & Hn & Hp & Heq)].
      - unfold cache_parsed. rewrite Heq. auto.
      - unfold cache_parsed. rewrite Heq. split.
        + intros k c'. destruct (decide (get inst "moduleIdRef" = k)) as [<-|Hne].
          * rewrite lookup_insert_eq. intros [= <-]. eauto.
          * rewrite lookup_insert_ne by exact Hne. apply Hinv.
        + intros k c' Hk. rewrite lookup_insert_ne; [exact Hk|].
          intros <-. congruence. }
    destruct Hstep as (Hinv1 & Hmono1).
    destruct (IH st1 st' Hinv1 Hrest) as (Hinv' & Hmono').
    split; [exact Hinv'|]. intros k c Hk. apply Hmono', Hmono1, Hk.
Qed.

(** C10: once an instance has yielded a component, that component is
    cached under its [moduleIdRef] and every later instance with the
    same [moduleIdRef] gets it back whatever its own path says; a failed
    resolution leaves the session as it was, so the next instance with
    that [moduleIdRef] is resolved from its own path; over a whole
    session the cache only holds successfully parsed components and
    never loses or replaces an entry. *)
Theorem component_cache w :
  (forall st inst c st',
     ensure_component w st inst = Ok (Some c, st') ->
     components st' !! get inst "moduleIdRef" = Some c /\
     forall inst2, get inst2 "moduleIdRef" = get inst "moduleIdRef" ->
       ensure_component w st' inst2 = Ok (Some c, st')) /\
  (forall st inst st',
     ensure_component w st inst = Ok (None, st') ->
     st' = st /\ components st' !! get inst "moduleIdRef" = None /\
     forall inst2 p2,
       get inst2 "moduleIdRef" = get inst "moduleIdRef" ->
       get inst2 "path" = Some p2 -> p2 <> EmptyString -> path_exists w p2 = true ->
       ensure_component w st' inst2
       = rbind (ComponentParser_parse w
                  (ComponentParser_init (get inst2 "moduleIdRef") p2))
           (fun c2 => Ok (Some c2,
                          with_components st'
                            (<[get inst2 "moduleIdRef" := c2]> (components st'))))) /\
  (forall v, cache_parsed w (with_version Fritzing_init v)) /\
  (forall st insts st',
     cache_parsed w st ->
     parse_instances w st insts = Ok st' ->
     cache_parsed w st' /\
     forall k c, components st !! k = Some c -> components st' !! k = Some c).
Proof.
  split; [|split; [|split]].
  - intros st inst c st' He.
    assert (Hc : components st' !! get inst "moduleIdRef" = Some c).
    { destruct (ensure_component_cases _ _ _ _ _ He)
        as [(c0 & [= <-] & -> & Hc) | [([=] & _) | (c0 & p & [= <-] & _ & _ & ->)]].
      - exact Hc.
      - apply lookup_insert_eq. }
    split; [exact Hc|].
    intros inst2 Hid. apply ensure_component_cached. rewrite Hid. exact Hc.
  - intros st inst st' He.
    destruct (ensure_component_cases _ _ _ _ _ He)
      as [(c0 & [=] & _) | [(_ & -> & Hn) | (c0 & p & [=] & _)]].
    split; [reflexivity|]. split; [exact Hn|].
    intros inst2 p2 Hid Hp2 Hne Hex. unfold ensure_component.
    rewrite Hid, Hn, Hp2. simpl.
    apply String.eqb_neq in Hne. rewrite Hne, Hex. simpl. rewrite Hne, Hex. reflexivity.
  - intros v k c. simpl. rewrite lookup_empty. discriminate.
  - intros st insts st'. apply parse_instances_cache.
Qed.

Lemma component_cache_witness :
  (exists c st',
     ensure_component Sample.w Sample.session Sample.inst_r1 = Ok (Some c, st') /\
     components st' !! get Sample.inst_r1 "moduleIdRef" = Some c /\
     ensure_component Sample.w st' Sample.inst_r2 = Ok (Some c, st')) /\
  (exists st',
     ensure_component Sample.w Sample.session Sample.inst_ghost = Ok (None, st') /\
     st' = Sample.session /\
     components st' !! get Sample.inst_ghost "moduleIdRef" = None /\
     ensure_component Sample.w st' Sample.inst_ghost_found
     = rbind (ComponentParser_parse Sample.w
                (ComponentParser_init (get Sample.inst_ghost_found "moduleIdRef")
                   "parts/core/resistor.fzp"))
         (fun c2 => Ok (Some c2,
                        with_components st'
                          (<[get Sample.inst_ghost_found "moduleIdRef" := c2]>
                             (components st'))))) /\
  cache_parsed Sample.w Sample.session /\
  (exists c st1 st',
     parse_instances Sample.w Sample.session [Sample.wire1; Sample.inst_r1] = Ok st1 /\
     components st1 !! Some "ResistorModuleID" = Some c /\
     parse_instances Sample.w st1 [Sample.inst_r2; Sample.inst_ghost] = Ok st' /\
     cache_parsed Sample.w st' /\
     components st' !! Some "ResistorModuleID" = Some c).
Proof.
  destruct (component_cache Sample.w) as (Hhit & Hmiss & Hinit & Hrun).
  split; [|split; [|split]].
  - assert (He : exists c st',
               ensure_component Sample.w Sample.session Sample.inst_r1 = Ok (Some c, st'))
      by (do 2 eexists; vm_compute; reflexivity).
    destruct He as (c & st' & He). exists c, st'. split; [exact He|].
    destruct (Hhit _ _ _ _ He) as [Hc Hre]. split; [exact Hc|].
    apply Hre. reflexivity.
  - assert (He : ensure_component Sample.w Sample.session Sample.inst_ghost
                 = Ok (None, Sample.session)) by (vm_compute; reflexivity).
    exists Sample.session. split; [exact He|].
    destruct (Hmiss _ _ _ He) as (Hst & Hn & Hre).
    split; [reflexivity|]. split; [exact Hn|].
    apply Hre; try reflexivity. intros H. discriminate H.
  - apply (Hinit (Some "0.8.5")).
  - assert (He : exists c st1 st',
               parse_instances Sample.w Sample.session [Sample.wire1; Sample.inst_r1]
               = Ok st1 /\
               components st1 !! Some "ResistorModuleID" = Some c /\
               parse_instances Sample.w st1 [Sample.inst_r2; Sample.inst_ghost] = Ok st')
      by (do 3 eexists; repeat split; vm_compute; reflexivity).
    destruct He as (c & st1 & st' & H1 & Hc & H2). exists c, st1, st'.
    destruct (Hrun Sample.session _ st1 (Hinit (Some "0.8.5")) H1) as [Hinv1 _].
    destruct (Hrun st1 _ st' Hinv1 H2) as [Hinv' Hkeep].
    repeat split; try assumption. apply Hkeep, Hc.
Defined.

(** ** Nets *)

(** C1: [build_nets] returns no net whatever the session holds.  On the
    sample sketch the wire and the resistor refer to each other, the
    two connection records are collected, and the design is returned
    without any net. *)
Theorem build_nets_drops_connections :
  (forall st, build_nets st = []) /\
  exists st d,
    parse_instances Sample.w Sample.session [Sample.wire1; Sample.inst_r1] = Ok st /\
    connects st
    = [[(Some "1", Some "connector1"); (Some "2", Some "connector0")];
       [(Some "2", Some "connector0"); (Some "1", Some "connector1")]] /\
    referenced (connects st) (Some "1", Some "connector1") /\
    (forall net, In net (build_nets st) ->
       ~ In (Some "1", Some "connector1") (net_terminals net)) /\
    parse Sample.w "sketch.fz" = Ok d /\
    design_nets d = [].
Proof.
  split; [reflexivity|].
  assert (He : exists st,
             parse_instances Sample.w Sample.session [Sample.wire1; Sample.inst_r1] = Ok st /\
             connects st
             = [[(Some "1", Some "connector1"); (Some "2", Some "connector0")];
                [(Some "2", Some "connector0"); (Some "1", Some "connector1")]]).
  { eexists. split; vm_compute; reflexivity. }
  destruct He as (st & He & Hc).
  assert (Hd : exists d, parse Sample.w "sketch.fz" = Ok d /\ design_nets d = []).
  { eexists. split; vm_compute; reflexivity. }
  destruct Hd as (d & Hd & Hn).
  exists st, d. repeat split; try assumption.
  - rewrite Hc. eexists. split; [left; reflexivity | left; reflexivity].
  - intros net [].
Qed.

(** * Further properties *)

(** ** Connection records *)


Lemma add_connects_connects st index view :
  connects (add_connects st index view)
  = (connects st
     ++ omap (fun c => match connector_connects c with
                       | [] => None
                       | cs => Some ((index, get c "connectorId") :: cs)
                       end)
          (findall ["connectors"; "connector"] view))%list.
Proof.
  unfold add_connects.
  generalize (findall ["connectors"; "connector"] view) as cs.
  intros cs. revert st. induction cs as [|c cs IH]; intros st; simpl.
  - rewrite app_nil_r. reflexivity.
  - destruct (connector_connects c) as [|t ts]; [apply IH|].
    rewrite IH. simpl. rewrite <- app_assoc. reflexivity.
Qed.



(** ** The terminal map *)

Lemma parse_terminals_fold conns : forall (acc : gmap string (option string)),
  fold_left
    (fun (terms : gmap string (option string)) conn =>
       match find ["views"; "schematicView"; "p"] conn with
       | None => terms
       | Some plug =>
           let cid := match get plug "terminalId" with
                      | None => get plug "svgId"
                      | Some c => Some c
                      end in
           match cid with
           | Some c => <[c := get conn "id"]> terms
           | None => terms
           end
       end) conns acc
  = fold_left
      (fun (terms : gmap string (option string)) conn =>
         match terminal_key conn with
         | Some c => <[c := get conn "id"]> terms
         | None => terms
         end) conns acc.
Proof.
  induction conns as [|conn conns IH]; intros acc; simpl; [reflexivity|].
  rewrite IH. f_equal. unfold terminal_key.
  destruct (find ["views"; "schematicView"; "p"] conn) as [plug|]; [|reflexivity].
  destruct (get plug "terminalId"); reflexivity.
Qed.

Lemma terminals_fold_absent conns k : forall (acc : gmap string (option string)),
  (forall conn, In conn conns -> terminal_key conn <> Some k) ->
  fold_left
    (fun (terms : gmap string (option string)) conn =>
       match terminal_key conn with
       | Some c => <[c := get conn "id"]> terms
       | None => terms
       end) conns acc !! k
  = acc !! k.
Proof.
  induction conns as [|conn conns IH]; intros acc Hno; simpl; [reflexivity|].
  rewrite IH by (intros c Hc; apply Hno; right; exact Hc).
  pose proof (Hno conn (or_introl eq_refl)) as Hk.
  destruct (terminal_key conn) as [key|]; [|reflexivity].
  apply lookup_insert_ne. congruence.
Qed.

(** X2: the terminal map holds a key exactly for the keys of the part's
    connectors (the terminal id of the schematic plug, else its svg id;
    connectors without a plug or without either id have none), and maps
    a key to the id of the last connector, in document order, that is
    filed under it. *)
Theorem terminal_map tree :
  (forall k,
     (forall conn, In conn (findall ["connectors"; "connector"] tree) ->
                   terminal_key conn <> Some k) ->
     parse_terminals tree !! k = None) /\
  (forall pre conn post k,
     findall ["connectors"; "connector"] tree = (pre ++ conn :: post)%list ->
     terminal_key conn = Some k ->
     (forall c, In c post -> terminal_key c <> Some k) ->
     parse_terminals tree !! k = Some (get conn "id")).
Proof.
  unfold parse_terminals. rewrite parse_terminals_fold. split.
  - intros k Hno. rewrite terminals_fold_absent by exact Hno. apply lookup_empty.
  - intros pre conn post k Hsplit Hkey Hpost.
    rewrite Hsplit, fold_left_app. simpl. rewrite Hkey.
    rewrite terminals_fold_absent by exact Hpost. apply lookup_insert_eq.
Qed.

Lemma terminal_map_witness :
  parse_terminals Sample2.twin_fzp !! "pad1" = None /\
  parse_terminals Sample2.twin_fzp !! "pad" = Some (Some "connector3") /\
  parse_terminals Sample2.twin_fzp !! "pad1terminal" = Some (Some "connector1").
Proof.
  destruct (terminal_map Sample2.twin_fzp) as [Hnone Hlast].
  split; [|split].
  - apply Hnone. intros conn Hc. vm_compute in Hc.
    destruct Hc as [<-|[<-|[<-|[<-|[]]]]]; intros H; discriminate H.
  - apply (Hlast
             [Sample.plug_connector "connector0" "svgId" "pad";
              Sample.El "connector" [("id", "connector1")]
                [Sample.El "views" []
                   [Sample.El "schematicView" []
                      [Sample.El "p" [("svgId", "pad1");
                                      ("terminalId", "pad1terminal")] []]]];
              Sample.El "connector" [("id", "connector2")] []]
             (Sample.plug_connector "connector3" "terminalId" "pad") []);
      [reflexivity | reflexivity | intros c []].
  - apply (Hlast
             [Sample.plug_connector "connector0" "svgId" "pad"]
             (Sample.El "connector" [("id", "connector1")]
                [Sample.El "views" []
                   [Sample.El "schematicView" []
                      [Sample.El "p" [("svgId", "pad1");
                                      ("terminalId", "pad1terminal")] []]]])
             [Sample.El "connector" [("id", "connector2")] [];
              Sample.plug_connector "connector3" "terminalId" "pad"]);
      [reflexivity | reflexivity |].
    intros c [<-|[<-|[]]]; intros H; discriminate H.
Defined.

(** ** Tags and namespaces *)

Lemma split_on_nonempty sep s : split_on sep s <> [].
Proof.
  destruct s as [|c r]; simpl; [discriminate|].
  destruct (Ascii.eqb c sep); [discriminate|].
  destruct (split_on sep r); discriminate.
Qed.

Lemma split_on_single sep s :
  has_char sep s = false -> split_on sep s = [s].
Proof.
  induction s as [|c r IH]; simpl; [reflexivity|].
  destruct (Ascii.eqb c sep); simpl; [discriminate|].
  intros H. rewrite (IH H). reflexivity.
Qed.

Lemma split_on_several sep s :
  has_char sep s = true -> exists t u ts, split_on sep s = t :: u :: ts.
Proof.
  induction s as [|c r IH]; simpl; [discriminate|].
  destruct (Ascii.eqb c sep); simpl.
  - intros _. destruct (split_on sep r) as [|u ts] eqn:E; [|eauto].
    exfalso. exact (split_on_nonempty sep r E).
  - intros H. destruct (IH H) as (t & u & ts & ->). eauto.
Qed.

(** The last field of [s.split(sep)] is what follows the last [sep]. *)
Lemma split_on_last sep s d :
  List.last (split_on sep s) d = tail_after_last sep s.
Proof.
  induction s as [|c r IH]; [reflexivity|].
  cbn [split_on tail_after_last has_char].
  destruct (Ascii.eqb c sep); cbn [orb].
  - destruct (split_on sep r) as [|u ts] eqn:E;
      [exfalso; exact (split_on_nonempty sep r E)|].
    rewrite <- IH. reflexivity.
  - destruct (has_char sep r) eqn:Hr.
    + destruct (split_on_several sep r Hr) as (t & u & ts & E).
      rewrite E in IH |- *. rewrite <- IH. reflexivity.
    + rewrite (split_on_single sep r Hr). reflexivity.
Qed.

Lemma has_char_app sep a b : has_char sep (a ++ b) = has_char sep a || has_char sep b.
Proof.
  induction a as [|c a IH]; [reflexivity|].
  change (has_char sep (String c (a ++ b)) = has_char sep (String c a) || has_char sep b).
  cbn [has_char]. rewrite IH, orb_assoc. reflexivity.
Qed.

Lemma tail_after_last_app sep pre name :
  has_char sep name = false ->
  tail_after_last sep (pre ++ String sep name) = name.
Proof.
  intros Hn. induction pre as [|c pre IH].
  - change (tail_after_last sep (String sep name) = name).
    cbn [tail_after_last has_char]. rewrite Ascii.eqb_refl. cbn [orb].
    destruct name as [|c' r]; [reflexivity|].
    cbn [tail_after_last]. rewrite Hn. reflexivity.
  - change (tail_after_last sep (String c (pre ++ String sep name)) = name).
    cbn [tail_after_last has_char]. rewrite has_char_app. cbn [has_char].
    rewrite Ascii.eqb_refl, IH. cbn [orb]. rewrite !orb_true_r. reflexivity.
Qed.

Lemma tail_after_last_none sep s : has_char sep s = false -> tail_after_last sep s = s.
Proof. intros H. destruct s as [|c r]; [reflexivity|]. cbn [tail_after_last]. rewrite H. reflexivity. Qed.

Lemma local_tag_spec e : local_tag e = tail_after_last "}"%char (etag e).
Proof. apply split_on_last. Qed.

Lemma element_shapes_ext e1 e2 :
  local_tag e1 = local_tag e2 -> eattrib e1 = eattrib e2 ->
  element_shapes e1 = element_shapes e2.
Proof.
  intros Ht Ha. unfold element_shapes. rewrite Ht.
  unfold parse_circle, parse_rect, parse_line, parse_polygon, parse_polyline,
    point_tokens, get_x, get_y, get_length, get_default, get.
  rewrite Ha. reflexivity.
Qed.

(** X3: only the local name of a tag and the attributes of an element
    decide its shapes: a namespace prefix in braces, the text and the
    children of the element make no difference; an element whose local
    name is none of circle, rect, line, polygon and polyline is passed
    over, leaving the parser as it was even when its id is a terminal. *)
Theorem shape_dispatch :
  (forall ns name attrib text children,
     has_char "}"%char name = false ->
     element_shapes (Element (ns ++ String "}"%char name) attrib text children)
     = element_shapes (shape_element name attrib)) /\
  (forall cp e, ~ In (local_tag e) shape_tags -> svg_step cp e = Ok cp).
Proof.
  split.
  - intros ns name attrib text children Hn. apply element_shapes_ext; [|reflexivity].
    rewrite !local_tag_spec. simpl.
    rewrite (tail_after_last_app _ ns name Hn), (tail_after_last_none _ name Hn).
    reflexivity.
  - intros cp e Hnot. unfold svg_step, element_shapes.
    unfold shape_tags in Hnot. simpl in Hnot.
    destruct (String.eqb_spec (local_tag e) "circle") as [Heq|_];
      [exfalso; apply Hnot; rewrite Heq; tauto|].
    destruct (String.eqb_spec (local_tag e) "rect") as [Heq|_];
      [exfalso; apply Hnot; rewrite Heq; tauto|].
    destruct (String.eqb_spec (local_tag e) "line") as [Heq|_];
      [exfalso; apply Hnot; rewrite Heq; tauto|].
    destruct (String.eqb_spec (local_tag e) "polygon") as [Heq|_];
      [exfalso; apply Hnot; rewrite Heq; tauto|].
    destruct (String.eqb_spec (local_tag e) "polyline") as [Heq|_];
      [exfalso; apply Hnot; rewrite Heq; tauto|].
    reflexivity.
Qed.

Lemma shape_dispatch_witness :
  element_shapes
    (Element ("{http://www.w3.org/2000/svg" ++ String "}"%char "polygon")
       [("points", "0,0 10,0 10,10")] (Some " ") [Sample.Txt "title" "t"])
  = element_shapes (shape_element "polygon" [("points", "0,0 10,0 10,10")]) /\
  svg_step Sample.resistor_parser (Sample.El "g" [("id", "pin0")] []) 
  = Ok Sample.resistor_parser.
Proof.
  destruct shape_dispatch as [Hns Hskip]. split.
  - apply Hns. reflexivity.
  - apply Hskip. vm_compute. intros H.
    repeat (destruct H as [H|H]; [discriminate H|]). exact H.
Defined.

(** ** The path of the drawing *)

Lemma append_assoc (a b c : string) : (a ++ b) ++ c = a ++ (b ++ c).
Proof.
  induction a as [|x a IH]; [reflexivity|].
  change (String x ((a ++ b) ++ c) = String x (a ++ (b ++ c))). rewrite IH. reflexivity.
Qed.

Lemma head_upto_last_app sep pre name :
  has_char sep name = false ->
  head_upto_last sep (pre ++ String sep name) = pre ++ String sep EmptyString.
Proof.
  intros Hn. induction pre as [|c pre IH].
  - change (head_upto_last sep (String sep name) = String sep EmptyString).
    cbn [head_upto_last has_char]. rewrite Ascii.eqb_refl. cbn [orb]. f_equal.
    destruct name as [|c' r]; [reflexivity|]. cbn [head_upto_last]. rewrite Hn. reflexivity.
  - change (head_upto_last sep (String c (pre ++ String sep name))
            = String c (pre ++ String sep EmptyString)).
    cbn [head_upto_last has_char]. rewrite has_char_app. cbn [has_char].
    rewrite Ascii.eqb_refl, IH. cbn [orb]. rewrite !orb_true_r. reflexivity.
Qed.

Lemma rstrip_char_clean sep d : endswith_char sep d = false -> rstrip_char sep d = d.
Proof.
  induction d as [|c r IH]; [reflexivity|].
  cbn [endswith_char rstrip_char]. destruct r as [|c' r'].
  - intros ->. reflexivity.
  - intros H. rewrite (IH H). reflexivity.
Qed.

Lemma rstrip_char_sep sep d :
  rstrip_char sep (d ++ String sep EmptyString) = rstrip_char sep d.
Proof.
  induction d as [|c r IH].
  - change (rstrip_char sep (String sep EmptyString) = EmptyString).
    cbn [rstrip_char]. rewrite Ascii.eqb_refl. reflexivity.
  - change (rstrip_char sep (String c (r ++ String sep EmptyString))
            = rstrip_char sep (String c r)).
    cbn [rstrip_char]. rewrite IH. reflexivity.
Qed.

Lemma all_char_clean sep d :
  d <> EmptyString -> endswith_char sep d = false -> all_char sep d = false.
Proof.
  induction d as [|c r IH]; [congruence|]. intros _.
  cbn [endswith_char all_char]. destruct r as [|c' r'].
  - intros ->. reflexivity.
  - intros H. rewrite IH by (discriminate || exact H). apply andb_false_r.
Qed.

Lemma all_char_app sep a b : all_char sep (a ++ b) = all_char sep a && all_char sep b.
Proof.
  induction a as [|c a IH]; [reflexivity|].
  change (all_char sep (String c (a ++ b)) = all_char sep (String c a) && all_char sep b).
  cbn [all_char]. rewrite IH, andb_assoc. reflexivity.
Qed.

Lemma endswith_char_app sep a b :
  b <> EmptyString -> endswith_char sep (a ++ b) = endswith_char sep b.
Proof.
  intros Hb. induction a as [|c a IH]; [reflexivity|].
  change (endswith_char sep (String c (a ++ b)) = endswith_char sep b).
  cbn [endswith_char]. rewrite IH.
  destruct (a ++ b) as [|x y] eqn:E; [|reflexivity].
  destruct a; [exfalso; exact (Hb E) | discriminate E].
Qed.

Lemma endswith_char_none sep s : has_char sep s = false -> endswith_char sep s = false.
Proof.
  induction s as [|c r IH]; [reflexivity|]. cbn [has_char endswith_char].
  intros H. apply orb_false_iff in H. destruct H as [Hc Hr].
  destruct r; [exact Hc | apply IH, Hr].
Qed.

(** [dirname] and [basename] take a path apart at its last slash. *)
Lemma dirname_basename d name :
  d <> EmptyString -> endswith_char slash d = false -> has_char slash name = false ->
  dirname (d ++ String slash name) = d /\ basename (d ++ String slash name) = name.
Proof.
  intros Hd He Hn. split.
  - unfold dirname. rewrite (head_upto_last_app _ d name Hn).
    rewrite all_char_app, (all_char_clean _ d Hd He). cbn [andb negb].
    destruct d as [|c r]; [congruence|].
    change (String.eqb (String c r ++ String slash EmptyString) "") with false.
    cbn [negb andb]. rewrite rstrip_char_sep. apply rstrip_char_clean, He.
  - apply tail_after_last_app, Hn.
Qed.

(** X4: for a part description at [root/sub/file] the drawing named by
    the [image] attribute is looked for at [root/svg/sub/image]; an image
    that is itself an absolute path is used as it stands; a part
    description given by a bare file name has its drawing under [svg/].
    [parse_svg] reads that path when it exists and leaves the body empty
    when it does not. *)
Theorem drawing_path :
  (forall root sub file image,
     root <> EmptyString -> endswith_char slash root = false ->
     sub <> EmptyString -> has_char slash sub = false ->
     has_char slash file = false ->
     svg_path_of (root ++ "/" ++ sub ++ "/" ++ file) image
     = if startswith_char slash image then image
       else root ++ "/svg/" ++ sub ++ "/" ++ image) /\
  (forall file image,
     has_char slash file = false ->
     svg_path_of file image
     = if startswith_char slash image then image else "svg/" ++ image) /\
  (forall w cp tree fzp_path layers image,
     find ["views"; "schematicView"; "layers"] tree = Some layers ->
     get layers "image" = Some image ->
     parse_svg w cp tree fzp_path
     = if path_exists w (svg_path_of fzp_path image)
       then rbind (ElementTree w (svg_path_of fzp_path image))
              (fun root => parse_elements cp (iter root))
       else Ok cp).
Proof.
  split; [|split].
  - intros root sub file image Hr Her Hs Hhs Hf. unfold svg_path_of.
    assert (Hsub : root ++ String slash sub <> EmptyString)
      by (destruct root; [congruence | discriminate]).
    assert (Hesub : endswith_char slash (root ++ String slash sub) = false).
    { rewrite endswith_char_app by discriminate.
      cbn [endswith_char]. destruct sub as [|c r]; [congruence|].
      apply (endswith_char_none slash (String c r) Hhs). }
    change (root ++ "/" ++ sub ++ "/" ++ file)
      with (root ++ String slash (sub ++ String slash file)).
    replace (root ++ String slash (sub ++ String slash file))
      with ((root ++ String slash sub) ++ String slash file)
      by (rewrite append_assoc; reflexivity).
    destruct (dirname_basename _ file Hsub Hesub Hf) as [-> _].
    destruct (dirname_basename root sub Hr Her Hhs) as [-> ->].
    unfold join. cbn [fold_left].
    assert (H1 : join2 root "svg" = root ++ "/svg").
    { unfold join2. cbn [startswith_char]. rewrite Her.
      destruct root; [congruence | reflexivity]. }
    rewrite H1.
    assert (H2 : join2 (root ++ "/svg") sub = root ++ "/svg/" ++ sub).
    { unfold join2.
      assert (startswith_char slash sub = false) as ->.
      { destruct sub as [|c r]; [reflexivity|]. cbn [startswith_char has_char] in *.
        apply orb_false_iff in Hhs. tauto. }
      rewrite endswith_char_app by discriminate.
      change (endswith_char slash "/svg") with false.
      assert (String.eqb (root ++ "/svg") "" = false) as ->
        by (destruct root; reflexivity).
      cbn [orb]. rewrite append_assoc. reflexivity. }
    rewrite H2. unfold join2.
    destruct (startswith_char slash image); [reflexivity|].
    assert (String.eqb (root ++ "/svg/" ++ sub) "" = false) as ->
      by (destruct root; reflexivity).
    assert (endswith_char slash (root ++ "/svg/" ++ sub) = false) as ->.
    { rewrite endswith_char_app by discriminate.
      change ("/svg/" ++ sub) with ("/svg" ++ String slash sub).
      rewrite endswith_char_app by discriminate.
      cbn [endswith_char]. destruct sub as [|c r]; [congruence|].
      apply (endswith_char_none slash (String c r) Hhs). }
    cbn [orb]. rewrite !append_assoc. reflexivity.
  - intros file image Hf. unfold svg_path_of.
    assert (Hd : dirname file = EmptyString).
    { unfold dirname.
      assert (head_upto_last slash file = EmptyString) as ->
        by (destruct file; [reflexivity | cbn [head_upto_last]; rewrite Hf; reflexivity]).
      reflexivity. }
    rewrite Hd. change (dirname "") with "". change (basename "") with "".
    unfold join. cbn [fold_left].
    change (join2 (join2 "" "svg") "") with "svg/".
    unfold join2. destruct (startswith_char slash image); reflexivity.
  - intros w cp tree fzp_path layers image Hl Hi. unfold parse_svg. rewrite Hl, Hi.
    fold (svg_path_of fzp_path image).
    destruct (path_exists w (svg_path_of fzp_path image)); reflexivity.
Qed.

Lemma drawing_path_witness :
  svg_path_of ("/usr/share/fritzing/parts" ++ "/" ++ "core" ++ "/" ++ "resistor.fzp")
    "resistor.svg"
  = "/usr/share/fritzing/parts/svg/core/resistor.svg" /\
  svg_path_of ("parts" ++ "/" ++ "core" ++ "/" ++ "resistor.fzp") "/tmp/r.svg"
  = "/tmp/r.svg" /\
  svg_path_of "resistor.fzp" "resistor.svg" = "svg/resistor.svg" /\
  parse_svg Sample.w Sample.resistor_parser Sample.resistor_fzp "parts/core/resistor.fzp"
  = rbind (ElementTree Sample.w (svg_path_of "parts/core/resistor.fzp" "resistor.svg"))
      (fun root => parse_elements Sample.resistor_parser (iter root)).
Proof.
  destruct drawing_path as (Hdeep & Hflat & Hread).
  split; [|split; [|split]].
  - rewrite Hdeep; try reflexivity; discriminate.
  - rewrite Hdeep; try reflexivity; discriminate.
  - rewrite Hflat; reflexivity.
  - rewrite (Hread Sample.w Sample.resistor_parser Sample.resistor_fzp
               "parts/core/resistor.fzp"
               (Sample.El "layers" [("image", "resistor.svg")] []) "resistor.svg");
      reflexivity.
Defined.

(** ** Shapes from integer attributes *)





(** ** Polylines *)

Lemma last_cons_default {A : Type} (x : A) l d : List.last (x :: l) d = List.last l x.
Proof.
  revert x d. induction l as [|y l IH]; intros x d; [reflexivity|].
  change (List.last (y :: l) d = List.last (y :: l) x). rewrite !IH. reflexivity.
Qed.

Lemma polyline_loop toks : forall acc last,
  (forall t, In t toks -> t <> EmptyString) ->
  for_each polyline_step (acc, last) toks
  = rbind (map_result point_of_token toks)
      (fun ps => Ok ((acc ++ segments (option_list last ++ ps))%list,
                     List.last (List.map Some ps) last)).
Proof.
  induction toks as [|t toks IH]; intros acc last Hne.
  - simpl. destruct last; simpl; rewrite app_nil_r; reflexivity.
  - cbn [for_each map_result].
    rewrite polyline_step_point by (apply Hne; left; reflexivity).
    destruct (point_of_token t) as [p|e]; cbn [rbind]; [|reflexivity].
    assert (Hne' : forall t', In t' toks -> t' <> EmptyString)
      by (intros t' Ht'; apply Hne; right; exact Ht').
    destruct last as [l|]; cbn [snd fst rbind]; rewrite (IH _ _ Hne');
      destruct (map_result point_of_token toks) as [ps|e]; cbn [rbind]; try reflexivity.
    + f_equal. f_equal.
      * cbn [option_list app segments]. rewrite <- app_assoc. reflexivity.
      * cbn [List.map]. rewrite last_cons_default. reflexivity.
    + f_equal. f_equal. cbn [List.map]. rewrite last_cons_default. reflexivity.
Qed.

Lemma segments_length pts : length (segments pts) = Nat.pred (length pts).
Proof.
  induction pts as [|p pts IH]; [reflexivity|].
  destruct pts as [|q pts]; [reflexivity|].
  change (S (length (segments (q :: pts))) = S (length pts)).
  rewrite IH. reflexivity.
Qed.

Lemma segments_lines pts sh : In sh (segments pts) -> shape_type sh = "line".
Proof.
  induction pts as [|p pts IH]; [intros []|].
  destruct pts as [|q pts]; [intros []|].
  intros [<-|H]; [reflexivity | apply IH, H].
Qed.

(** X6: when the points attribute of a polyline parses to the points
    [pts], the result is the lines joining each point to the next, in
    order: one line fewer than there are points, and nothing for fewer
    than two points. *)
Theorem polyline_segments poly pts :
  parsed_points poly = Ok pts ->
  parse_polyline poly = Ok (segments pts) /\
  length (segments pts) = Nat.pred (length pts) /\
  (forall sh, In sh (segments pts) -> shape_type sh = "line").
Proof.
  intros Hp. split; [|split; [apply segments_length | apply segments_lines]].
  unfold parse_polyline. rewrite polyline_loop by apply point_tokens_nonempty.
  unfold parsed_points in Hp. rewrite Hp. reflexivity.
Qed.

Lemma polyline_segments_witness :
  parse_polyline Sample2.zigzag
  = Ok [Line {| px := 0; py := 0 |} {| px := 3; py := 0 |};
        Line {| px := 3; py := 0 |} {| px := 3; py := -3 |};
        Line {| px := 3; py := -3 |} {| px := 6; py := -3 |}] /\
  parse_polyline (shape_element "polyline" [("points", " 5,5 ")]) = Ok [].
Proof.
  split.
  - apply (proj1 (polyline_segments Sample2.zigzag
             [{| px := 0; py := 0 |}; {| px := 3; py := 0 |};
              {| px := 3; py := -3 |}; {| px := 6; py := -3 |}] eq_refl)).
  - apply (proj1 (polyline_segments (shape_element "polyline" [("points", " 5,5 ")])
             [{| px := 5; py := -5 |}] eq_refl)).
Defined.

(** ** Parsed parts *)

Lemma parse_svg_spec w cp tree fzp_path :
  parse_svg w cp tree fzp_path
  = match find ["views"; "schematicView"; "layers"] tree with
    | None => Ok cp
    | Some layers =>
        match get layers "image" with
        | None => Ok cp
        | Some image =>
            if path_exists w (svg_path_of fzp_path image)
            then rbind (ElementTree w (svg_path_of fzp_path image))
                   (fun root => parse_elements cp (iter root))
            else Ok cp
        end
    end.
Proof.
  unfold parse_svg.
  destruct (find ["views"; "schematicView"; "layers"] tree) as [layers|]; [|reflexivity].
  destruct (get layers "image") as [image|]; [|reflexivity].
  fold (svg_path_of fzp_path image).
  destruct (path_exists w (svg_path_of fzp_path image)); reflexivity.
Qed.

Lemma ComponentParser_parse_spec w idref path :
  ComponentParser_parse w (ComponentParser_init idref path)
  = rbind (ElementTree w path) (fun tree =>
      rbind (deref (find ["label"] tree)) (fun label =>
        rbind (parse_svg w (parser_with_terminals idref path tree) tree path)
          (fun cp2 =>
             Ok {| name := idref;
                   attributes := [("_prefix", etext label)];
                   symbols := [{| bodies := [body cp2] |}] |}))).
Proof. reflexivity. Qed.

(** X7: a part description that can be read and has a label, but no
    drawing to go with it (no schematic layers element, no image
    attribute, or no file at the derived path) still parses: the
    component carries the label as its prefix and one symbol with one
    empty body. *)
Theorem part_without_drawing w idref path tree label :
  ElementTree w path = Ok tree ->
  find ["label"] tree = Some label ->
  (forall layers image,
     find ["views"; "schematicView"; "layers"] tree = Some layers ->
     get layers "image" = Some image ->
     path_exists w (svg_path_of path image) = false) ->
  ComponentParser_parse w (ComponentParser_init idref path)
  = Ok {| name := idref;
          attributes := [("_prefix", etext label)];
          symbols := [{| bodies := [{| shapes := []; pins := [] |}] |}] |}.
Proof.
  intros Ht Hl Hno. rewrite ComponentParser_parse_spec, Ht. cbn [rbind].
  rewrite Hl. cbn [deref rbind]. rewrite parse_svg_spec.
  destruct (find ["views"; "schematicView"; "layers"] tree) as [layers|]; [|reflexivity].
  destruct (get layers "image") as [image|] eqn:Hi; [|reflexivity].
  rewrite (Hno layers image eq_refl Hi). reflexivity.
Qed.

Lemma part_without_drawing_witness :
  ComponentParser_parse
    {| path_exists := fun _ => false;
       ElementTree := fun _ => Ok Sample.resistor_fzp;
       lookup_part := fun _ _ => None |}
    (ComponentParser_init (Some "ResistorModuleID") "parts/core/resistor.fzp")
  = Ok {| name := Some "ResistorModuleID";
          attributes := [("_prefix", etext (Sample.Txt "label" "R"))];
          symbols := [{| bodies := [{| shapes := []; pins := [] |}] |}] |}.
Proof.
  apply (part_without_drawing _ _ _ Sample.resistor_fzp (Sample.Txt "label" "R"));
    reflexivity.
Defined.

(** X8: a part description with a label whose drawing can be read, and
    whose elements all yield their shapes, parses to a component named
    by the type id, with the label as prefix and one symbol with one
    body; the body holds the shapes of the elements of the drawing in
    document order (the root first, each element before its children)
    and the pins of the terminal shapes in that order, numbered from 0. *)
Theorem drawn_part w idref path tree label layers image root shss :
  ElementTree w path = Ok tree ->
  find ["label"] tree = Some label ->
  find ["views"; "schematicView"; "layers"] tree = Some layers ->
  get layers "image" = Some image ->
  path_exists w (svg_path_of path image) = true ->
  ElementTree w (svg_path_of path image) = Ok root ->
  map_result element_shapes (iter root) = Ok shss ->
  ComponentParser_parse w (ComponentParser_init idref path)
  = Ok {| name := idref;
          attributes := [("_prefix", etext label)];
          symbols :=
            [{| bodies :=
                  [{| shapes := concat shss;
                      pins := number_pins 0
                                (all_pin_points (parser_with_terminals idref path tree)
                                   (iter root) shss) |}] |}] |}.
Proof.
  intros Ht Hl Hly Hi Hex Hroot Hsh.
  rewrite ComponentParser_parse_spec, Ht. cbn [rbind].
  rewrite Hl. cbn [deref rbind]. rewrite parse_svg_spec, Hly, Hi, Hex, Hroot. cbn [rbind].
  pose proof (parse_elements_spec (iter root) (parser_with_terminals idref path tree)) as H.
  rewrite Hsh in H. destruct H as (cp' & -> & Hs & Hp & _). cbn [rbind].
  simpl in Hs, Hp. destruct (body cp') as [sh pn]. simpl in Hs, Hp. subst sh pn.
  reflexivity.
Qed.

Lemma drawn_part_witness :
  ComponentParser_parse Sample.w
    (ComponentParser_init (Some "ResistorModuleID") "parts/core/resistor.fzp")
  = Ok {| name := Some "ResistorModuleID";
          attributes := [("_prefix", etext (Sample.Txt "label" "R"))];
          symbols :=
            [{| bodies :=
                  [{| shapes := concat Sample.resistor_shapes;
                      pins := number_pins 0
                                (all_pin_points
                                   (parser_with_terminals (Some "ResistorModuleID")
                                      "parts/core/resistor.fzp" Sample.resistor_fzp)
                                   (iter Sample.resistor_svg) Sample.resistor_shapes) |}] |}] |}.
Proof.
  apply (drawn_part Sample.w _ _ Sample.resistor_fzp (Sample.Txt "label" "R")
           (Sample.El "layers" [("image", "resistor.svg")] []) "resistor.svg"
           Sample.resistor_svg Sample.resistor_shapes);
    vm_compute; reflexivity.
Defined.

(** X9: what makes a part fail: a part file that cannot be read, a part
    description without a label (whether or not it has a drawing), a
    drawing that exists but cannot be read, and the first element of the
    drawing whose shapes fail to parse, each with its own exception. *)
Theorem part_errors w idref path :
  (forall ex, ElementTree w path = Raise ex ->
     ComponentParser_parse w (ComponentParser_init idref path) = Raise ex) /\
  (forall tree, ElementTree w path = Ok tree -> find ["label"] tree = None ->
     ComponentParser_parse w (ComponentParser_init idref path) = Raise AttributeError) /\
  (forall tree label layers image ex,
     ElementTree w path = Ok tree -> find ["label"] tree = Some label ->
     find ["views"; "schematicView"; "layers"] tree = Some layers ->
     get layers "image" = Some image ->
     path_exists w (svg_path_of path image) = true ->
     ElementTree w (svg_path_of path image) = Raise ex ->
     ComponentParser_parse w (ComponentParser_init idref path) = Raise ex) /\
  (forall tree label layers image root pre e post shss ex,
     ElementTree w path = Ok tree -> find ["label"] tree = Some label ->
     find ["views"; "schematicView"; "layers"] tree = Some layers ->
     get layers "image" = Some image ->
     path_exists w (svg_path_of path image) = true ->
     ElementTree w (svg_path_of path image) = Ok root ->
     iter root = (pre ++ e :: post)%list ->
     map_result element_shapes pre = Ok shss ->
     element_shapes e = Raise ex ->
     ComponentParser_parse w (ComponentParser_init idref path) = Raise ex).
Proof.
  rewrite ComponentParser_parse_spec. split; [|split; [|split]].
  - intros ex ->. reflexivity.
  - intros tree Ht Hl. rewrite Ht. cbn [rbind]. rewrite Hl. reflexivity.
  - intros tree label layers image ex Ht Hl Hly Hi Hex Hroot.
    rewrite Ht. cbn [rbind]. rewrite Hl. cbn [rbind deref].
    rewrite parse_svg_spec, Hly, Hi, Hex, Hroot. reflexivity.
  - intros tree label layers image root pre e post shss ex Ht Hl Hly Hi Hex Hroot
           Hsplit Hpre He.
    rewrite Ht. cbn [rbind]. rewrite Hl. cbn [rbind deref].
    rewrite parse_svg_spec, Hly, Hi, Hex, Hroot. cbn [rbind].
    pose proof (parse_elements_spec (iter root) (parser_with_terminals idref path tree)) as H.
    assert (Hall : map_result element_shapes (iter root) = Raise ex)
      by (rewrite Hsplit; exact (map_result_raise _ _ _ _ _ _ Hpre He)).
    rewrite Hall in H. rewrite H. reflexivity.
Qed.

Lemma part_errors_witness :
  ComponentParser_parse Sample.w (ComponentParser_init None "parts/core/ghost.fzp")
  = Raise IOError /\
  ComponentParser_parse Sample.w (ComponentParser_init None "parts/core/nolabel.fzp")
  = Raise AttributeError /\
  ComponentParser_parse Sample2.w_unreadable
    (ComponentParser_init None "parts/core/resistor.fzp")
  = Raise ParseError /\
  ComponentParser_parse Sample2.w_badshape
    (ComponentParser_init None "parts/core/resistor.fzp")
  = Raise ValueError.
Proof.
  split; [|split; [|split]].
  - apply (proj1 (part_errors Sample.w None "parts/core/ghost.fzp")). reflexivity.
  - apply (proj1 (proj2 (part_errors Sample.w None "parts/core/nolabel.fzp"))
             Sample.nolabel_fzp); reflexivity.
  - apply (proj1 (proj2 (proj2 (part_errors Sample2.w_unreadable None
                                  "parts/core/resistor.fzp")))
             Sample.resistor_fzp (Sample.Txt "label" "R")
             (Sample.El "layers" [("image", "resistor.svg")] []) "resistor.svg");
      reflexivity.
  - apply (proj2 (proj2 (proj2 (part_errors Sample2.w_badshape None
                                  "parts/core/resistor.fzp")))
             Sample.resistor_fzp (Sample.Txt "label" "R")
             (Sample.El "layers" [("image", "resistor.svg")] []) "resistor.svg"
             Sample2.bad_svg [Sample2.bad_svg; Sample2.plain_rect] Sample.bad_rect []
             [[]; [Rectangle 10 (-26) 4 6]]);
      vm_compute; reflexivity.
Defined.

(** ** Instances outside the schematic *)

(** X10: a non-wire instance without a schematic view, or whose
    schematic view is on the breadboard layer, leaves the session
    exactly as it was; its part is not even looked at, so this holds
    whatever the part files are like. *)
Theorem instance_outside_schematic w st inst :
  get inst "moduleIdRef" <> Some wire_sentinel ->
  (find ["views"; "schematicView"] inst = None \/
   exists view, find ["views"; "schematicView"] inst = Some view /\
                get view "layer" = Some breadboard) ->
  parse_instance w st inst = Ok st.
Proof.
  intros Hw Hv. unfold parse_instance. rewrite bool_decide_eq_false_2 by exact Hw.
  unfold parse_component_instance.
  destruct Hv as [-> | (view & -> & Hl)]; [reflexivity|].
  rewrite bool_decide_eq_true_2 by exact Hl. reflexivity.
Qed.

Lemma instance_outside_schematic_witness :
  parse_instance Sample.w Sample.session Sample2.inst_breadboard = Ok Sample.session /\
  ComponentParser_parse Sample.w
    (ComponentParser_init (Some "NoLabelModuleID") "parts/core/nolabel.fzp")
  = Raise AttributeError.
Proof.
  split; [|vm_compute; reflexivity].
  apply instance_outside_schematic.
  - intros H. discriminate H.
  - right. eexists. split; reflexivity.
Defined.

(** ** The coordinate helpers together *)

Lemma int_of_float_raise f ex :
  int_of_float f = Raise ex -> ex = ValueError \/ ex = OverflowError.
Proof. destruct f; simpl; intros [=]; auto. Qed.

Lemma make_x_raise v ex :
  make_x v = Raise ex ->
  (ex = ValueError \/ ex = OverflowError) /\ v <> PyInt 0.
Proof.
  unfold make_x. destruct (py_float v) as [f|e] eqn:Hf; simpl.
  - intros H. split; [exact (int_of_float_raise _ _ H)|].
    intros ->. vm_compute in Hf. injection Hf as <-. vm_compute in H. discriminate.
  - intros [= ->]. split.
    + destruct v as [z|s|f]; simpl in Hf.
      * destruct (binary_normalize prec emax z 0 false); try discriminate.
        injection Hf as <-. auto.
      * left. exact (float_of_string_raise _ _ Hf).
      * discriminate.
    + intros ->. vm_compute in Hf. discriminate.
Qed.

(** X11: on every element and attribute name [get_y] is [get_x]
    negated and [get_length] is [get_x]: they succeed and fail together.
    They fail only on an attribute that is present, and only with
    [ValueError] (text that is no number, or NaN) or [OverflowError]
    (an infinity). *)
Theorem coordinate_helpers e nm :
  get_y e nm = rbind (get_x e nm) (fun k => Ok (- k)) /\
  get_length e nm = get_x e nm /\
  (forall ex, get_x e nm = Raise ex ->
     (ex = ValueError \/ ex = OverflowError) /\ is_Some (get e nm)).
Proof.
  split; [apply make_y_make_x|]. split; [reflexivity|].
  intros ex H. unfold get_x, get_default in H.
  destruct (make_x_raise _ _ H) as [Hex Hne]. split; [exact Hex|].
  destruct (get e nm); [eauto | congruence].
Qed.

Lemma coordinate_helpers_witness :
  (ValueError = ValueError \/ ValueError = OverflowError) /\
  is_Some (get (shape_element "rect" [("x", "NaN"); ("y", "-inf")]) "x") /\
  get_x (shape_element "rect" [("x", "NaN"); ("y", "-inf")]) "y" = Raise OverflowError /\
  get_y (shape_element "rect" [("x", "7.5"); ("y", "-inf")]) "x" = Ok (- 8).
Proof.
  destruct (coordinate_helpers (shape_element "rect" [("x", "NaN"); ("y", "-inf")]) "x")
    as (_ & _ & Hraise).
  destruct (Hraise ValueError) as [H1 H2]; [vm_compute; reflexivity|].
  split; [exact H1|]. split; [exact H2|]. split; [vm_compute; reflexivity|].
  rewrite (proj1 (coordinate_helpers (shape_element "rect" [("x", "7.5"); ("y", "-inf")]) "x")).
  vm_compute. reflexivity.
Defined.

(** ** The part library *)

(** X12: when the path of an uncached instance names no existing file,
    the part library is asked with that path and the sketch's Fritzing
    version, and the part is parsed from the library's path, not from
    the instance's; the outcome is cached under the instance's
    [moduleIdRef].  Asking the library before [parse] has set the
    version raises [AttributeError]. *)
Theorem library_fallback w st inst p :
  components st !! get inst "moduleIdRef" = None ->
  get inst "path" = Some p -> p <> EmptyString -> path_exists w p = false ->
  (fritzing_version st = None -> ensure_component w st inst = Raise AttributeError) /\
  (forall v q,
     fritzing_version st = Some v -> lookup_part w p v = Some q ->
     q <> EmptyString -> path_exists w q = true ->
     ensure_component w st inst
     = rbind (ComponentParser_parse w
                (ComponentParser_init (get inst "moduleIdRef") q))
         (fun c => Ok (Some c,
                       with_components st
                         (<[get inst "moduleIdRef" := c]> (components st))))).
Proof.
  intros Hc Hp Hne Hex. apply String.eqb_neq in Hne.
  unfold ensure_component. rewrite Hc, Hp. simpl. rewrite Hne, Hex. simpl. split.
  - intros ->. reflexivity.
  - intros v q -> Hq Hqne Hqex. simpl. rewrite Hq.
    apply String.eqb_neq in Hqne. simpl. rewrite Hqne, Hqex. reflexivity.
Qed.

Lemma library_fallback_witness :
  ensure_component Sample2.w Fritzing_init Sample.inst_ghost = Raise AttributeError /\
  ensure_component Sample2.w Sample.session Sample.inst_ghost
  = rbind (ComponentParser_parse Sample2.w
             (ComponentParser_init (get Sample.inst_ghost "moduleIdRef")
                "parts/core/resistor.fzp"))
      (fun c => Ok (Some c,
                    with_components Sample.session
                      (<[get Sample.inst_ghost "moduleIdRef" := c]>
                         (components Sample.session)))).
Proof.
  split.
  - apply (proj1 (library_fallback Sample2.w Fritzing_init Sample.inst_ghost
                    "parts/core/ghost.fzp" eq_refl eq_refl
                    ltac:(discriminate) eq_refl)).
    reflexivity.
  - apply (proj2 (library_fallback Sample2.w Sample.session Sample.inst_ghost
                    "parts/core/ghost.fzp" eq_refl eq_refl
                    ltac:(discriminate) eq_refl) "0.8.5");
      try reflexivity. discriminate.
Defined.

(** ** Fatal instances *)

(** X13: an exception raised by one instance ends the instance loop,
    whatever instances follow, and [parse] returns no design; a sketch
    file that cannot be read does the same. *)
Theorem parse_aborts w :
  (forall st pre bad post st1 ex,
     parse_instances w st pre = Ok st1 -> parse_instance w st1 bad = Raise ex ->
     parse_instances w st (pre ++ bad :: post) = Raise ex) /\
  (forall filename root pre bad post st1 ex,
     ElementTree w filename = Ok root ->
     findall ["instances"; "instance"] root = (pre ++ bad :: post)%list ->
     parse_instances w
       (with_version Fritzing_init (Some (default "0" (get root "fritzingVersion")))) pre
     = Ok st1 ->
     parse_instance w st1 bad = Raise ex ->
     parse w filename = Raise ex) /\
  (forall filename ex, ElementTree w filename = Raise ex -> parse w filename = Raise ex).
Proof.
  split; [|split].
  - intros st pre bad post st1 ex Hpre Hbad. exact (for_each_raise _ _ _ _ _ _ _ Hpre Hbad).
  - intros filename root pre bad post st1 ex Hroot Hsplit Hpre Hbad.
    unfold parse. rewrite Hroot. cbn [rbind]. rewrite Hsplit.
    unfold parse_instances in *. rewrite (for_each_raise _ _ _ _ _ _ _ Hpre Hbad).
    reflexivity.
  - intros filename ex Hroot. unfold parse. rewrite Hroot. reflexivity.
Qed.

Lemma parse_aborts_witness :
  parse_instances Sample.w Sample.session
    ([Sample.wire1] ++ Sample.inst_untitled :: [Sample.inst_r1])
  = Raise AttributeError /\
  parse Sample2.w_broken "broken.fz" = Raise AttributeError /\
  parse Sample.w "missing.fz" = Raise IOError.
Proof.
  destruct (parse_aborts Sample.w) as (Hloop & _ & Hfile).
  destruct (parse_aborts Sample2.w_broken) as (_ & Hparse & _).
  assert (He : exists st1,
             parse_instances Sample.w Sample.session [Sample.wire1] = Ok st1 /\
             parse_instance Sample.w st1 Sample.inst_untitled = Raise AttributeError)
    by (eexists; split; vm_compute; reflexivity).
  assert (He' : exists st1,
             parse_instances Sample2.w_broken
               (with_version Fritzing_init
                  (Some (default "0" (get Sample2.broken_sketch "fritzingVersion"))))
               [Sample.wire1] = Ok st1 /\
             parse_instance Sample2.w_broken st1 Sample.inst_untitled
             = Raise AttributeError)
    by (eexists; split; vm_compute; reflexivity).
  destruct He as (st1 & H1 & H2). destruct He' as (st1' & H1' & H2').
  split; [|split].
  - exact (Hloop _ _ _ _ _ _ H1 H2).
  - exact (Hparse "broken.fz" Sample2.broken_sketch [Sample.wire1] Sample.inst_untitled
             [Sample.inst_r1] st1' _ eq_refl eq_refl H1' H2').
  - apply Hfile. reflexivity.
Defined.

(** ** Wires with any number of connectors *)

Lemma enumerate_in {A : Type} (l : list A) :
  (forall ic, In ic (enumerate l) -> In (snd ic) l) /\
  (forall a, In a l -> exists n, In (n, a) (enumerate l)).
Proof.
  unfold enumerate. generalize 0%nat as k.
  induction l as [|x l IH]; intros k; simpl; split; try tauto.
  - intros ic [<-|H]; [left; reflexivity | right; exact (proj1 (IH (S k)) ic H)].
  - intros a [<-|H]; [eauto|].
    destruct (proj2 (IH (S k)) a H) as [n Hn]. eauto.
Qed.

(** The loop of [parse_wire] once the model index, the geometry and all
    connector ids are there. *)
Lemma wire_loop i g x y x2 y2 :
  get_x g "x" = Ok x -> get_y g "y" = Ok y ->
  get_x g "x2" = Ok x2 -> get_y g "y2" = Ok y2 ->
  forall l st (d : gmap string NetPoint),
    points st !! Some i = Some d ->
    (forall ic, In ic l -> is_Some (get (snd ic) "connectorId")) ->
    exists st' (d' : gmap string NetPoint),
      for_each (wire_step (Some i) (Some g)) st l = Ok st' /\
      points st' = <[Some i := d']> (points st) /\
      connects st' = connects st /\
      component_instances st' = component_instances st /\
      components st' = components st /\
      fritzing_version st' = fritzing_version st /\
      (forall cid, is_Some (d' !! cid) <->
                   is_Some (d !! cid) \/
                   exists ic, In ic l /\ get (snd ic) "connectorId" = Some cid) /\
      (forall cid np, d' !! cid = Some np ->
         d !! cid = Some np \/
         point_id np = (i ++ ".") ++ cid /\
         ((np_x np = x /\ np_y np = y) \/ (np_x np = x2 /\ np_y np = y2))).
Proof.
  intros Hx Hy Hx2 Hy2. induction l as [|ic l IH]; intros st d Hd Hids.
  - exists st, d. cbn [for_each]. rewrite insert_id by exact Hd.
    repeat split; auto.
    + intros [H | (ic & [] & _)]. exact H.
  - destruct (Hids ic (or_introl eq_refl)) as [c Hc].
    set (np := {| point_id := (i ++ ".") ++ c;
                  np_x := if Nat.eqb (fst ic) 0 then x else x2;
                  np_y := if Nat.eqb (fst ic) 0 then y else y2 |}).
    assert (Hstep : wire_step (Some i) (Some g) st ic
                    = Ok (with_points st (<[Some i := <[c := np]> d]> (points st)))).
    { unfold wire_step. cbn [str_add rbind deref]. rewrite Hc. cbn [str_add rbind].
      subst np. destruct (Nat.eqb (fst ic) 0); cbn [fst snd].
      - rewrite Hx, Hy. cbn [rbind]. rewrite Hd. reflexivity.
      - rewrite Hx2, Hy2. cbn [rbind]. rewrite Hd. reflexivity. }
    cbn [for_each]. rewrite Hstep. cbn [rbind].
    destruct (IH (with_points st (<[Some i := <[c := np]> d]> (points st)))
                (<[c := np]> d))
      as (st' & d' & Hrun & Hp & Hcn & Hci & Hcm & Hv & Hdom & Hval).
    { cbn [with_points points]. apply lookup_insert_eq. }
    { intros ic' Hic'. apply Hids. right. exact Hic'. }
    exists st', d'. split; [exact Hrun|].
    cbn [with_points points connects component_instances components fritzing_version]
      in Hp, Hcn, Hci, Hcm, Hv.
    rewrite insert_insert_eq in Hp.
    repeat split; try assumption.
    + intros Hs. apply Hdom in Hs. destruct Hs as [Hs | (ic' & Hin & Hg)].
      * destruct (decide (c = cid)) as [<-|Hne].
        -- right. exists ic. split; [left; reflexivity | exact Hc].
        -- rewrite lookup_insert_ne in Hs by exact Hne. left. exact Hs.
      * right. exists ic'. split; [right; exact Hin | exact Hg].
    + intros [Hs | (ic' & [<-|Hin] & Hg)]; apply Hdom.
      * destruct (decide (c = cid)) as [<-|Hne].
        -- left. rewrite lookup_insert_eq. eauto.
        -- left. rewrite lookup_insert_ne by exact Hne. exact Hs.
      * left. rewrite Hc in Hg. injection Hg as <-. rewrite lookup_insert_eq. eauto.
      * right. eauto.
    + intros cid np' Hnp. destruct (Hval cid np' Hnp) as [Hold | Hnew]; [|right; exact Hnew].
      destruct (decide (c = cid)) as [<-|Hne].
      * rewrite lookup_insert_eq in Hold. injection Hold as <-. right.
        split; [reflexivity|]. subst np. cbn [np_x np_y].
        destruct (Nat.eqb (fst ic) 0); auto.
      * rewrite lookup_insert_ne in Hold by exact Hne. left. exact Hold.
Qed.

(** X14: a wire with a model index, a schematic view whose connectors
    all have ids, and a geometry with readable [x], [y], [x2], [y2]
    always parses, whatever the number of connectors.  Its net points
    replace whatever was filed under its model index: there is one per
    distinct connector id of the view, named [index.connectorId] and
    placed at one of the two ends; the points of other wires, the
    component instances and the component cache are left alone. *)
Theorem wire_points st inst view i g x y x2 y2 :
  find ["views"; "schematicView"] inst = Some view ->
  get inst "modelIndex" = Some i ->
  find ["geometry"] view = Some g ->
  get_x g "x" = Ok x -> get_y g "y" = Ok y ->
  get_x g "x2" = Ok x2 -> get_y g "y2" = Ok y2 ->
  (forall c, In c (findall ["connectors"; "connector"] view) ->
             is_Some (get c "connectorId")) ->
  exists st' (d : gmap string NetPoint),
    parse_wire st inst = Ok st' /\
    points st' = <[Some i := d]> (points st) /\
    (forall cid, is_Some (d !! cid) <->
       exists c, In c (findall ["connectors"; "connector"] view) /\
                 get c "connectorId" = Some cid) /\
    (forall cid np, d !! cid = Some np ->
       point_id np = (i ++ ".") ++ cid /\
       ((np_x np = x /\ np_y np = y) \/ (np_x np = x2 /\ np_y np = y2))) /\
    component_instances st' = component_instances st /\
    components st' = components st.
Proof.
  intros Hv Hi Hg Hx Hy Hx2 Hy2 Hids.
  destruct (enumerate_in (findall ["connectors"; "connector"] view)) as [Hfwd Hbwd].
  destruct (wire_loop i g x y x2 y2 Hx Hy Hx2 Hy2
              (enumerate (findall ["connectors"; "connector"] view))
              (with_points st (<[Some i := ∅]> (points st))) ∅)
    as (st2 & d & Hrun & Hp & _ & Hci & Hcm & _ & Hdom & Hval).
  { cbn [with_points points]. apply lookup_insert_eq. }
  { intros ic Hic. apply Hids, Hfwd, Hic. }
  cbn [with_points points component_instances components] in Hp, Hci, Hcm.
  rewrite insert_insert_eq in Hp.
  destruct (add_connects_fields st2 (Some i) view) as (Hp' & Hci' & Hcm' & _).
  exists (add_connects st2 (Some i) view), d.
  split; [unfold parse_wire; rewrite Hv, Hi, Hg, Hrun; reflexivity|].
  split; [rewrite Hp'; exact Hp|]. split; [|split; [|split]].
  - intros cid. rewrite Hdom. split.
    + intros [Hs | (ic & Hin & Hget)].
      * rewrite lookup_empty in Hs. destruct Hs as [? [=]].
      * exists (snd ic). split; [exact (Hfwd ic Hin) | exact Hget].
    + intros (c & Hin & Hget). right. destruct (Hbwd c Hin) as [n Hn].
      exists (n, c). split; [exact Hn | exact Hget].
  - intros cid np Hnp. destruct (Hval cid np Hnp) as [Hold | Hnew]; [|exact Hnew].
    rewrite lookup_empty in Hold. discriminate.
  - rewrite Hci'. exact Hci.
  - rewrite Hcm'. exact Hcm.
Qed.

Lemma wire_points_witness :
  exists st' (d : gmap string NetPoint),
    parse_wire Sample.session Sample2.wire_three = Ok st' /\
    points st' = <[Some "20" := d]> (points Sample.session) /\
    (is_Some (d !! "connector1") <->
       exists c, In c [Sample.connector "connector0" []; Sample.connector "connector1" [];
                       Sample.connector "connector0" []] /\
                 get c "connectorId" = Some "connector1") /\
    size d = 2%nat.
Proof.
  destruct (wire_points Sample.session Sample2.wire_three
              (Sample.El "schematicView" []
                 [Sample.El "geometry" [("x", "1"); ("y", "2"); ("x2", "3"); ("y2", "4")] [];
                  Sample.El "connectors" []
                    [Sample.connector "connector0" [];
                     Sample.connector "connector1" [];
                     Sample.connector "connector0" []]])
              "20"
              (Sample.El "geometry" [("x", "1"); ("y", "2"); ("x2", "3"); ("y2", "4")] [])
              1 (-2) 3 (-4))
    as (st' & d & Hrun & Hp & Hdom & _); try (vm_compute; reflexivity).
  { intros c Hc. vm_compute in Hc.
    destruct Hc as [<-|[<-|[<-|[]]]]; eexists; reflexivity. }
  exists st', d. split; [exact Hrun|]. split; [exact Hp|]. split; [apply Hdom|].
  assert (Hd : points st' !! Some "20" = Some d) by (rewrite Hp; apply lookup_insert_eq).
  assert (Hval : option_map size (points st' !! Some "20") = Some 2%nat).
  { vm_compute in Hrun. injection Hrun as <-. vm_compute. reflexivity. }
  rewrite Hd in Hval. injection Hval as Hval. exact Hval.
Defined.

(** X15: a wire whose schematic view has no connector parses even with
    nothing else in place, and files an empty set of points under its
    model index; with at least one connector, a missing model index or a
    first connector without id raises [TypeError], and a view without a
    geometry block raises [AttributeError]. *)
Theorem wire_errors st inst view :
  find ["views"; "schematicView"] inst = Some view ->
  (findall ["connectors"; "connector"] view = [] ->
   exists st', parse_wire st inst = Ok st' /\
     points st' = <[get inst "modelIndex" := ∅]> (points st) /\
     connects st' = connects st) /\
  (forall c cs,
     findall ["connectors"; "connector"] view = c :: cs ->
     (get inst "modelIndex" = None -> parse_wire st inst = Raise TypeError) /\
     (get c "connectorId" = None -> parse_wire st inst = Raise TypeError) /\
     (is_Some (get inst "modelIndex") -> is_Some (get c "connectorId") ->
      find ["geometry"] view = None -> parse_wire st inst = Raise AttributeError)).
Proof.
  intros Hv. unfold parse_wire. rewrite Hv. split.
  - intros Hcs. rewrite Hcs. cbn [enumerate length seq combine for_each rbind].
    eexists. split; [reflexivity|]. unfold add_connects. rewrite Hcs. split; reflexivity.
  - intros c cs Hcs. rewrite Hcs.
    change (enumerate (c :: cs)) with ((0%nat, c) :: combine (seq 1 (length cs)) cs).
    cbn [for_each].
    split; [|split].
    + intros ->. reflexivity.
    + intros Hc.
      assert (Hstep : forall s,
                wire_step (get inst "modelIndex") (find ["geometry"] view) s (0%nat, c)
                = Raise TypeError).
      { intros s. unfold wire_step. cbn [snd]. rewrite Hc.
        destruct (get inst "modelIndex"); reflexivity. }
      rewrite Hstep. reflexivity.
    + intros [i Hi] [cid Hc] Hg.
      assert (Hstep : forall s,
                wire_step (get inst "modelIndex") (find ["geometry"] view) s (0%nat, c)
                = Raise AttributeError).
      { intros s. unfold wire_step. cbn [snd]. rewrite Hc, Hi, Hg. reflexivity. }
      rewrite Hstep. reflexivity.
Qed.

Lemma wire_errors_witness :
  (exists st',
     parse_wire Sample.session
       (Sample.El "instance" [] [Sample.El "views" [] [Sample.El "schematicView" [] []]])
     = Ok st' /\
     points st' = <[None := ∅]> (points Sample.session) /\
     connects st' = connects Sample.session) /\
  parse_wire Sample.session Sample2.wire_unindexed = Raise TypeError /\
  parse_wire Sample.session Sample2.wire_shapeless = Raise AttributeError.
Proof.
  split; [|split].
  - apply (proj1 (wire_errors Sample.session
                    (Sample.El "instance" []
                       [Sample.El "views" [] [Sample.El "schematicView" [] []]])
                    (Sample.El "schematicView" [] []) eq_refl)).
    reflexivity.
  - apply (proj1 (proj2 (wire_errors Sample.session Sample2.wire_unindexed
                           Sample.wire1_view eq_refl)
                    Sample.wire1_end0 [Sample.wire1_end1] eq_refl)).
    reflexivity.
  - apply (proj2 (proj2 (proj2 (wire_errors Sample.session Sample2.wire_shapeless
                                  (Sample.El "schematicView" []
                                     [Sample.El "connectors" []
                                        [Sample.connector "connector0" []]])
                                  eq_refl)
                           (Sample.connector "connector0" []) [] eq_refl)));
      first [reflexivity | eexists; reflexivity].
Defined.

(** ** What a session keeps *)

Lemma extends_refl st : extends st st.
Proof.
  unfold extends. repeat split; auto. exists []. rewrite app_nil_r. reflexivity.
Qed.

Lemma extends_trans st1 st2 st3 : extends st1 st2 -> extends st2 st3 -> extends st1 st3.
Proof.
  intros (Hv1 & (n1 & Hc1) & Hp1 & Hi1) (Hv2 & (n2 & Hc2) & Hp2 & Hi2).
  unfold extends. split; [congruence|]. split; [|split; auto].
  exists (n1 ++ n2)%list. rewrite Hc2, Hc1, app_assoc. reflexivity.
Qed.

Lemma wire_step_frame idx geom st ic st1 :
  wire_step idx geom st ic = Ok st1 ->
  connects st1 = connects st /\
  component_instances st1 = component_instances st /\
  fritzing_version st1 = fritzing_version st /\
  exists d, points st1 = <[idx := d]> (points st).
Proof.
  unfold wire_step.
  destruct (str_add idx (Some ".")) as [pid0|]; simpl; [|discriminate].
  destruct (get (snd ic) "connectorId") as [cid|]; simpl; [|discriminate].
  destruct geom as [g|]; simpl; [|discriminate].
  destruct (get_x g _); simpl; [|discriminate].
  destruct (get_y g _); simpl; [|discriminate].
  destruct (points st !! idx); [|discriminate].
  intros [= <-]. simpl. eauto 10.
Qed.

Lemma wire_loop_frame idx geom l : forall st st',
  for_each (wire_step idx geom) st l = Ok st' ->
  connects st' = connects st /\
  component_instances st' = component_instances st /\
  fritzing_version st' = fritzing_version st /\
  (forall k, is_Some (points st !! k) -> is_Some (points st' !! k)).
Proof.
  induction l as [|ic l IH]; intros st st'; simpl.
  - intros [= <-]. auto.
  - destruct (wire_step idx geom st ic) as [st1|] eqn:Hstep; simpl; [|discriminate].
    intros Hrest. destruct (wire_step_frame _ _ _ _ _ Hstep) as (Hc & Hi & Hv & d & Hp).
    destruct (IH _ _ Hrest) as (Hc' & Hi' & Hv' & Hp').
    repeat split; try congruence.
    intros k Hk. apply Hp'. rewrite Hp.
    destruct (decide (idx = k)) as [<-|Hne].
    + rewrite lookup_insert_eq. eauto.
    + rewrite lookup_insert_ne by exact Hne. exact Hk.
Qed.

Lemma parse_wire_extends st inst st' :
  parse_wire st inst = Ok st' ->
  extends st st' /\ component_instances st' = component_instances st.
Proof.
  unfold parse_wire.
  destruct (find ["views"; "schematicView"] inst) as [view|];
    [|intros [= <-]; split; [apply extends_refl | reflexivity]].
  destruct (for_each _ _ _) as [st2|] eqn:Hrun; simpl; [|discriminate].
  intros [= <-].
  destruct (wire_loop_frame _ _ _ _ _ Hrun) as (Hc & Hi & Hv & Hp).
  destruct (add_connects_fields st2 (get inst "modelIndex") view) as (Hp' & Hi' & _ & Hv').
  cbn [with_points connects component_instances fritzing_version points] in Hc, Hi, Hv, Hp.
  split; [|congruence].
  unfold extends. split; [congruence|]. split; [|split].
  - rewrite add_connects_connects, Hc. eauto.
  - intros k Hk. rewrite Hp'. apply Hp.
    destruct (decide (get inst "modelIndex" = k)) as [<-|Hne].
    + rewrite lookup_insert_eq. eauto.
    + rewrite lookup_insert_ne by exact Hne. exact Hk.
  - intros k Hk. rewrite Hi', Hi. exact Hk.
Qed.

Lemma ensure_component_frame w st inst r st1 :
  ensure_component w st inst = Ok (r, st1) ->
  points st1 = points st /\ connects st1 = connects st /\
  component_instances st1 = component_instances st /\
  fritzing_version st1 = fritzing_version st /\
  (forall k c, components st !! k = Some c -> components st1 !! k = Some c) /\
  (forall c, r = Some c -> components st1 !! get inst "moduleIdRef" = Some c).
Proof.
  intros He.
  destruct (ensure_component_cases _ _ _ _ _ He)
    as [(c & -> & -> & Hc) | [(-> & -> & Hn) | (c & p & -> & Hn & _ & ->)]].
  - repeat split; auto. intros c' [= <-]. exact Hc.
  - repeat split; auto. intros c' [=].
  - cbn [with_components points connects component_instances fritzing_version components].
    repeat split; auto.
    + intros k c' Hk. rewrite lookup_insert_ne; [exact Hk | congruence].
    + intros c' [= <-]. apply lookup_insert_eq.
Qed.

(** What a component instance does to the session when it parses. *)
Lemma parse_component_instance_frame w st inst st' :
  parse_component_instance w st inst = Ok st' ->
  extends st st' /\ points st' = points st /\
  (forall k c, components st !! k = Some c -> components st' !! k = Some c) /\
  (component_instances st' = component_instances st \/
   exists ci c,
     component_instances st'
     = <[get inst "modelIndex" := ci]> (component_instances st) /\
     library_id ci = get inst "moduleIdRef" /\
     components st' !! get inst "moduleIdRef" = Some c).
Proof.
  unfold parse_component_instance.
  destruct (find ["views"; "schematicView"] inst) as [view|];
    [|intros [= <-]; auto using extends_refl].
  destruct (bool_decide _); [intros [= <-]; auto using extends_refl|].
  destruct (ensure_component w st inst) as [[r st1]|] eqn:He; simpl; [|discriminate].
  destruct (ensure_component_frame _ _ _ _ _ He) as (Hp & Hc & Hi & Hv & Hmono & Hsome).
  assert (Hext1 : extends st st1).
  { unfold extends. rewrite Hv, Hc, Hp, Hi. repeat split; auto.
    exists []. rewrite app_nil_r. reflexivity. }
  destruct r as [cpt|]; [|intros [= <-]; auto].
  destruct (deref (find ["title"] inst)) as [title_el|]; simpl; [|discriminate].
  destruct (deref (find ["geometry"] view)) as [geom|]; simpl; [|discriminate].
  destruct (decode_rotation _) as [rot|]; simpl; [|discriminate].
  destruct (get_x geom "x") as [x|]; simpl; [|discriminate].
  destruct (get_y geom "y") as [y|]; simpl; [|discriminate].
  intros [= <-].
  match goal with |- context [add_connects ?s ?i ?v] =>
    destruct (add_connects_fields s i v) as (Hp2 & Hi2 & Hc2 & Hv2);
    pose proof (add_connects_connects s i v) as Hcn2 end.
  cbn [with_component_instances points component_instances components
       fritzing_version connects] in Hp2, Hi2, Hc2, Hv2, Hcn2.
  split; [|split; [congruence | split]].
  - apply (extends_trans _ st1); [exact Hext1|].
    unfold extends. rewrite Hv2, Hp2, Hi2, Hcn2. repeat split; eauto.
    intros k Hk. destruct (decide (get inst "modelIndex" = k)) as [<-|Hne].
    + rewrite lookup_insert_eq. eauto.
    + rewrite lookup_insert_ne by exact Hne. exact Hk.
  - intros k c Hk. rewrite Hc2. apply Hmono, Hk.
  - right. eexists. exists cpt. rewrite Hc2, Hi2, Hi.
    split; [reflexivity|]. split; [reflexivity|]. apply Hsome. reflexivity.
Qed.

Lemma parse_instance_frame w st inst st' :
  parse_instance w st inst = Ok st' ->
  extends st st' /\ (instances_resolved st -> instances_resolved st').
Proof.
  unfold parse_instance. destruct (bool_decide _).
  - intros H. destruct (parse_wire_extends _ _ _ H) as [Hext Hi].
    split; [exact Hext|]. unfold instances_resolved.
    rewrite Hi, (parse_wire_components _ _ _ H). auto.
  - intros H.
    destruct (parse_component_instance_frame _ _ _ _ H) as (Hext & _ & Hmono & Hci).
    split; [exact Hext|]. intros Hres index ci.
    destruct Hci as [-> | (ci' & c & -> & Hlib & Hc)].
    + intros Hk. destruct (Hres index ci Hk) as [c Hc]. exists c. apply Hmono, Hc.
    + destruct (decide (get inst "modelIndex" = index)) as [<-|Hne].
      * rewrite lookup_insert_eq. intros [= <-]. rewrite Hlib. eauto.
      * rewrite lookup_insert_ne by exact Hne. intros Hk.
        destruct (Hres index ci Hk) as [c0 Hc0]. exists c0. apply Hmono, Hc0.
Qed.

Lemma parse_instances_frame w insts : forall st st',
  parse_instances w st insts = Ok st' ->
  extends st st' /\ (instances_resolved st -> instances_resolved st').
Proof.
  unfold parse_instances. induction insts as [|inst insts IH]; intros st st'; simpl.
  - intros [= <-]. split; [apply extends_refl | auto].
  - destruct (parse_instance w st inst) as [st1|] eqn:H1; simpl; [|discriminate].
    intros Hrest. destruct (parse_instance_frame _ _ _ _ H1) as [He1 Hr1].
    destruct (IH _ _ Hrest) as [He2 Hr2].
    split; [exact (extends_trans _ _ _ He1 He2) | auto].
Qed.

(** X16: over any run of instances a session only grows: the Fritzing
    version stays what [parse] set it to, the connection records
    collected so far remain, in order, at the front of the list, and a
    model index that has net points or a component instance keeps
    having one (a later instance with the same index replaces it). *)
Theorem session_grows w st insts st' :
  parse_instances w st insts = Ok st' -> extends st st'.
Proof. intros H. exact (proj1 (parse_instances_frame w insts st st' H)). Qed.

Lemma session_grows_witness :
  exists st1 st',
    parse_instances Sample.w Sample.session [Sample.wire1; Sample.inst_r1] = Ok st1 /\
    parse_instances Sample.w st1 [Sample.inst_r2; Sample.wire1; Sample.inst_ghost] = Ok st' /\
    extends st1 st'.
Proof.
  assert (He : exists st1 st',
             parse_instances Sample.w Sample.session [Sample.wire1; Sample.inst_r1] = Ok st1 /\
             parse_instances Sample.w st1
               [Sample.inst_r2; Sample.wire1; Sample.inst_ghost] = Ok st')
    by (do 2 eexists; split; [vm_compute; reflexivity | vm_compute; reflexivity]).
  destruct He as (st1 & st' & H1 & H2). exists st1, st'.
  split; [exact H1|]. split; [exact H2|]. exact (session_grows _ _ _ _ H2).
Defined.

(** X17: no component instance is left dangling: after any run of
    instances every recorded component instance names a component type
    that is in the cache, and in the design that [parse] returns every
    component instance has its component among the design's components. *)
Theorem instances_have_components w :
  (forall st insts st',
     instances_resolved st -> parse_instances w st insts = Ok st' ->
     instances_resolved st') /\
  (forall filename d,
     parse w filename = Ok d ->
     forall ci, In ci (design_component_instances d) ->
       exists c, In (library_id ci, c) (design_components d)).
Proof.
  split.
  - intros st insts st' Hres Hrun.
    exact (proj2 (parse_instances_frame w insts st st' Hrun) Hres).
  - intros filename d Hparse ci Hci. unfold parse in Hparse.
    destruct (ElementTree w filename) as [root|]; simpl in Hparse; [|discriminate].
    destruct (parse_instances w _ _) as [st|] eqn:Hrun; simpl in Hparse; [|discriminate].
    injection Hparse as <-. cbn [design_component_instances design_components] in *.
    assert (Hres : instances_resolved st).
    { apply (proj2 (parse_instances_frame w _ _ _ Hrun)).
      intros index ci0. simpl. rewrite lookup_empty. discriminate. }
    apply in_map_iff in Hci. destruct Hci as ([index ci0] & <- & Hin).
    apply list_elem_of_In, elem_of_map_to_list in Hin.
    destruct (Hres index ci0 Hin) as [c Hc]. exists c.
    apply list_elem_of_In, elem_of_map_to_list. exact Hc.
Qed.

Lemma instances_have_components_witness :
  exists d,
    parse Sample.w "sketch.fz" = Ok d /\
    length (design_component_instances d) = 2%nat /\
    forall ci, In ci (design_component_instances d) ->
      exists c, In (library_id ci, c) (design_components d).
Proof.
  assert (He : exists d, parse Sample.w "sketch.fz" = Ok d /\
                         length (design_component_instances d) = 2%nat)
    by (eexists; split; [vm_compute; reflexivity | vm_compute; reflexivity]).
  destruct He as (d & Hd & Hlen). exists d. split; [exact Hd|]. split; [exact Hlen|].
  exact (proj2 (instances_have_components Sample.w) "sketch.fz" d Hd).
Defined.

(** ** Pin numbers *)

Lemma py_str_inj a b : py_str a = py_str b -> a = b.
Proof.
  unfold py_str. intros H.
  assert (Hnz : forall p, Pos.to_uint p <> Nil /\ Pos.to_uint p <> zero).
  { intros p. pose proof (Unsigned.of_to p) as Hp.
    split; intros E; rewrite E in Hp; discriminate Hp. }
  assert (Hgood : forall z, Z.to_int z <> Pos Nil /\ Z.to_int z <> Neg Nil).
  { intros [|p|p]; simpl; split; try discriminate;
      intros [= E]; exact (proj1 (Hnz p) E). }
  assert (Hd : Z.to_int a = Z.to_int b).
  { pose proof (NilZero.isi _ (proj1 (Hgood a)) (proj2 (Hgood a))) as Ha.
    pose proof (NilZero.isi _ (proj1 (Hgood b)) (proj2 (Hgood b))) as Hb.
    rewrite H in Ha. congruence. }
  assert (Hinj : forall p q, Pos.to_uint p = Pos.to_uint q -> p = q).
  { intros p q E. pose proof (Unsigned.of_to p) as Hp. rewrite E, Unsigned.of_to in Hp.
    congruence. }
  destruct a as [|p|p], b as [|q|q]; simpl in Hd; try discriminate Hd;
    try reflexivity; injection Hd as Hd;
    try (f_equal; exact (Hinj _ _ Hd)).
  - exfalso. exact (proj2 (Hnz q) (eq_sym Hd)).
  - exfalso. exact (proj2 (Hnz p) Hd).
Qed.

Lemma numbered_lookup (l : list Pin) : forall n,
  List.map pin_number l
  = List.map (fun i => py_str (Z.of_nat i)) (seq n (length l)) ->
  forall i p, l !! i = Some p -> pin_number p = py_str (Z.of_nat (n + i)).
Proof.
  induction l as [|x l IH]; intros n Hm i p Hi; [discriminate Hi|].
  simpl in Hm. injection Hm as Hx Hm. destruct i as [|i]; simpl in Hi.
  - injection Hi as <-. rewrite Nat.add_0_r. exact Hx.
  - rewrite (IH (S n) Hm i p Hi). do 2 f_equal. lia.
Qed.

(** X18: pin numbers identify pins.  Two successive calls of
    [get_next_pin_number] never return the same text, and in a parsed
    component two pins at different positions of a body never carry the
    same number. *)
Theorem pin_numbers_distinct w :
  (forall cp,
     fst (get_next_pin_number cp)
     <> fst (get_next_pin_number (snd (get_next_pin_number cp)))) /\
  (forall idref path c s b,
     ComponentParser_parse w (ComponentParser_init idref path) = Ok c ->
     In s (symbols c) -> In b (bodies s) ->
     forall i j p q,
       pins b !! i = Some p -> pins b !! j = Some q ->
       pin_number p = pin_number q -> i = j).
Proof.
  split.
  - intros cp H. cbn [get_next_pin_number fst snd next_pin_number] in H.
    apply py_str_inj in H. lia.
  - intros idref path c s b Hparse Hs Hb i j p q Hi Hj Heq.
    rewrite ComponentParser_parse_spec in Hparse.
    destruct (ElementTree w path) as [tree|]; [|discriminate Hparse].
    cbn [rbind] in Hparse.
    destruct (deref (find ["label"] tree)) as [label|]; [|discriminate Hparse].
    cbn [rbind] in Hparse.
    destruct (parse_svg w (parser_with_terminals idref path tree) tree path)
      as [cp2|] eqn:Hsvg; [|discriminate Hparse].
    cbn [rbind] in Hparse. injection Hparse as <-.
    cbn [symbols] in Hs. destruct Hs as [<-|[]].
    cbn [bodies] in Hb. destruct Hb as [<-|[]].
    assert (Hnum : List.map pin_number (pins (body cp2))
                   = List.map (fun i => py_str (Z.of_nat i))
                       (seq 0 (length (pins (body cp2))))).
    { rewrite parse_svg_spec in Hsvg.
      destruct (find ["views"; "schematicView"; "layers"] tree) as [layers|];
        [|injection Hsvg as <-; reflexivity].
      destruct (get layers "image") as [image|]; [|injection Hsvg as <-; reflexivity].
      destruct (path_exists w (svg_path_of path image));
        [|injection Hsvg as <-; reflexivity].
      destruct (ElementTree w (svg_path_of path image)) as [root|]; [|discriminate Hsvg].
      cbn [rbind] in Hsvg.
      apply (parse_elements_numbers (parser_with_terminals idref path tree) (iter root));
        [reflexivity | reflexivity | exact Hsvg]. }
    pose proof (numbered_lookup _ 0 Hnum i p Hi) as Hp.
    pose proof (numbered_lookup _ 0 Hnum j q Hj) as Hq.
    rewrite Hp, Hq in Heq. apply py_str_inj in Heq. lia.
Qed.

Lemma pin_numbers_distinct_witness :
  exists c s b p q,
    ComponentParser_parse Sample.w
      (ComponentParser_init (Some "ResistorModuleID") "parts/core/resistor.fzp") = Ok c /\
    In s (symbols c) /\ In b (bodies s) /\
    pins b !! 0%nat = Some p /\ pins b !! 1%nat = Some q /\
    pin_number p <> pin_number q.
Proof.
  assert (He : exists c s b p q,
             ComponentParser_parse Sample.w
               (ComponentParser_init (Some "ResistorModuleID") "parts/core/resistor.fzp")
             = Ok c /\
             symbols c = [s] /\ bodies s = [b] /\
             pins b !! 0%nat = Some p /\ pins b !! 1%nat = Some q).
  { do 5 eexists. split; [vm_compute; reflexivity|].
    split; [reflexivity|]. split; [reflexivity|]. split; reflexivity. }
  destruct He as (c & s & b & p & q & Hc & Hs & Hb & Hp & Hq).
  exists c, s, b, p, q.
  assert (Hins : In s (symbols c)) by (rewrite Hs; left; reflexivity).
  assert (Hinb : In b (bodies s)) by (rewrite Hb; left; reflexivity).
  repeat split; try assumption.
  intros Heq.
  pose proof (proj2 (pin_numbers_distinct Sample.w) _ _ c s b Hc Hins Hinb
                0%nat 1%nat p q Hp Hq Heq) as H.
  discriminate H.
Defined.
